(** * GNSS-SDR: GPS CNAV message decoder and channel state machine

    A shallow embedding of

      - src/core/system_parameters/gps_cnav_navigation_message.cc
        (bit-field reader, decode_page, have_new_* / get_* publishers), and
      - src/algorithms/channel/libs/channel_fsm.cc
        (the boost::statechart channel state machine and its actions),

    followed by the properties established about them. *)

From Stdlib Require Import ZArith List Bool Lia.
From Stdlib Require Import Floats.SpecFloat.
From stdpp Require Import base gmap strings.

Import ListNotations.
Local Open Scope Z_scope.

(* ===================================================================== *)
(** * Fixed-width integers *)
(* ===================================================================== *)

(** C++ integers are carried as [Z] with the wrap-around written out. *)
Module Int.

(** Conversion to [uint64_t]: reduction modulo 2^64. *)
Definition wrap_u64 (z : Z) : Z := z mod 2 ^ 64.

(** Conversion to [int64_t]: the representative in [-2^63, 2^63). *)
Definition wrap_s64 (z : Z) : Z := (z + 2 ^ 63) mod 2 ^ 64 - 2 ^ 63.

(** [static_cast<int32_t>]: the representative in [-2^31, 2^31). *)
Definition to_int32 (z : Z) : Z := (z + 2 ^ 31) mod 2 ^ 32 - 2 ^ 31.

(** Product of two [int32_t] values, reduced to 32 bits (a product out of
    range is undefined in C++; the scaled fields of a page stay far below
    the range). *)
Definition mul32 (a b : Z) : Z := to_int32 (a * b).

End Int.

(* ===================================================================== *)
(** * Bit-field reader *)
(* ===================================================================== *)

Module BitReader.
Import Int.

Definition GPS_CNAV_DATA_PAGE_BITS : Z := 300.

(** [std::bitset<GPS_CNAV_DATA_PAGE_BITS>]: bit [pos] of the block is
    [Z.testbit bits pos]; a page is a [Z] in [0, 2^300).  [operator[]]
    outside [0, 300) is undefined in C++; here it reads [false]. *)
Definition bitset : Type := Z.

Definition is_page (bits : bitset) : Prop :=
  0 <= bits < 2 ^ GPS_CNAV_DATA_PAGE_BITS.

Definition bit (bits : bitset) (pos : Z) : bool := Z.testbit bits pos.

(** [std::vector<std::pair<int32_t, int32_t>>]: slices (first, second) =
    (start bit counted from 1 at the most significant bit, length). *)
Definition descriptor : Type := list (Z * Z).

(** [parameter[0]]; undefined on an empty vector, here the pair (0, 0). *)
Definition front (parameter : descriptor) : Z * Z := nth 0 parameter (0, 0).

Definition read_navigation_bool (bits : bitset) (parameter : descriptor) : bool :=
  if bit bits (GPS_CNAV_DATA_PAGE_BITS - fst (front parameter))
  then true else false.

(** Inner loop of read_navigation_unsigned: [n] remaining iterations
    starting at index [j]. *)
Fixpoint unsigned_slice (bits : bitset) (first j : Z) (n : nat) (value : Z) : Z :=
  match n with
  | O => value
  | S n' =>
      let value := wrap_u64 (Z.shiftl value 1) in
      let value :=
        if bit bits (GPS_CNAV_DATA_PAGE_BITS - first - j)
        then wrap_u64 (value + 1) else value in
      unsigned_slice bits first (j + 1) n' value
  end.

(** Outer loop over the slices; [j < parameter[i].second] runs
    [Z.to_nat second] times. *)
Fixpoint unsigned_slices (bits : bitset) (parameter : descriptor) (value : Z) : Z :=
  match parameter with
  | [] => value
  | (first, second) :: rest =>
      unsigned_slices bits rest
        (unsigned_slice bits first 0 (Z.to_nat second) value)
  end.

Definition read_navigation_unsigned (bits : bitset) (parameter : descriptor) : Z :=
  unsigned_slices bits parameter 0.

(** The two masks of read_navigation_signed.  Both literals exceed the
    range of [long long], so the operation is carried out on the 64-bit
    pattern and the result converted back to [int64_t].  The doubling
    [value *= 2] is reduced to 64 bits likewise. *)
Definition ALL_ONES : Z := 0xFFFFFFFFFFFFFFFF.
Definition CLEAR_LSB : Z := 0xFFFFFFFFFFFFFFFE.

Fixpoint signed_slice (bits : bitset) (first j : Z) (n : nat) (value : Z) : Z :=
  match n with
  | O => value
  | S n' =>
      let value := wrap_s64 (value * 2) in
      let value := wrap_s64 (Z.land (wrap_u64 value) CLEAR_LSB) in
      let value :=
        if bit bits (GPS_CNAV_DATA_PAGE_BITS - first - j)
        then wrap_s64 (value + 1) else value in
      signed_slice bits first (j + 1) n' value
  end.

Fixpoint signed_slices (bits : bitset) (parameter : descriptor) (value : Z) : Z :=
  match parameter with
  | [] => value
  | (first, second) :: rest =>
      signed_slices bits rest
        (signed_slice bits first 0 (Z.to_nat second) value)
  end.

Definition read_navigation_signed (bits : bitset) (parameter : descriptor) : Z :=
  let value := 0 in
  let value :=
    if bit bits (GPS_CNAV_DATA_PAGE_BITS - fst (front parameter))
    then wrap_s64 (Z.lxor (wrap_u64 value) ALL_ONES)
    else Z.land value 0 in
  signed_slices bits parameter value.

(** ** Vocabulary for stating properties of the reader *)

(** Number of bits a descriptor extracts. *)
Definition field_width (parameter : descriptor) : Z :=
  fold_right (fun s acc => Z.of_nat (Z.to_nat (snd s)) + acc) 0 parameter.

(** A slice lies within the page: bits first .. first+second-1 of 1..300. *)
Definition slice_in_page (s : Z * Z) : Prop :=
  1 <= fst s /\ 0 <= snd s /\ fst s + snd s - 1 <= GPS_CNAV_DATA_PAGE_BITS.

(** A well-formed field: at least one slice, the first one not empty, all
    slices within the page. *)
Definition well_formed (parameter : descriptor) : Prop :=
  Forall slice_in_page parameter /\ 1 <= snd (front parameter) /\ parameter <> [].

(** The concatenated bits as an unbounded integer, most significant
    first, accumulated onto [value]. *)
Fixpoint concat_slice (bits : bitset) (first j : Z) (n : nat) (value : Z) : Z :=
  match n with
  | O => value
  | S n' =>
      concat_slice bits first (j + 1) n'
        (2 * value + Z.b2z (bit bits (GPS_CNAV_DATA_PAGE_BITS - first - j)))
  end.

Fixpoint concat_slices (bits : bitset) (parameter : descriptor) (value : Z) : Z :=
  match parameter with
  | [] => value
  | (first, second) :: rest =>
      concat_slices bits rest (concat_slice bits first 0 (Z.to_nat second) value)
  end.

(** Congruence modulo 2^64. *)
Definition eqm (a b : Z) : Prop := a mod 2 ^ 64 = b mod 2 ^ 64.

End BitReader.

(* ===================================================================== *)
(** * Double-precision numbers *)
(* ===================================================================== *)

(** C++ [double] as IEEE 754 binary64, carried by the specification
    floats of the Standard Library. *)
Module Double.

Definition prec : Z := 53.
Definition emax : Z := 1024.

Definition double : Type := spec_float.

(** The literal [0.0]. *)
Definition zero : double := S754_zero false.

(** [static_cast<double>] of a 64-bit integer: round to nearest even. *)
Definition of_int (z : Z) : double := binary_normalize prec emax z 0 false.

Definition mul (x y : double) : double := SFmul prec emax x y.

Definition ltb (x y : double) : bool := SFltb x y.

(** The literal [-4095.9]: the binary64 number nearest to it,
    -0x1.fffcccccccccdp+11. *)
Definition minus_4095_9 : double := S754_finite true 9006979352415437 (-41).

(** The power of two 2^e as a normalised binary64 number
    (for -1022 <= e <= 1023). *)
Definition pow2 (e : Z) : double := S754_finite false (2 ^ 52) (e - 52).

(** A finite number with the sign bit clear. *)
Definition finite_nonneg (x : double) : bool :=
  match x with
  | S754_zero false | S754_finite false _ _ => true
  | _ => false
  end.

End Double.

(* ===================================================================== *)
(** * The field catalogue *)
(* ===================================================================== *)

(** The field descriptors ([CNAV_PRN], [CNAV_TOW], ...) and scale factors
    ([CNAV_TOW_LSB], ...) that decode_page uses are constants of a header
    outside the decoder's source file.  They enter the embedding as a
    parameter: a [catalogue] gives every field name its slices and its
    scale factor. *)
Module Catalogue.
Import BitReader.

Inductive field : Set :=
  (* common to all messages *)
  | CNAV_PRN | CNAV_MSG_TYPE | CNAV_TOW | CNAV_ALERT_FLAG
  (* message type 10 *)
  | CNAV_WN | CNAV_HEALTH | CNAV_TOP1 | CNAV_URA | CNAV_TOE1
  | CNAV_DELTA_A | CNAV_A_DOT | CNAV_DELTA_N0 | CNAV_DELTA_N0_DOT
  | CNAV_M0 | CNAV_E_ECCENTRICITY | CNAV_OMEGA
  | CNAV_INTEGRITY_FLAG | CNAV_L2_PHASING_FLAG
  (* message type 11 *)
  | CNAV_TOE2 | CNAV_OMEGA0 | CNAV_DELTA_OMEGA_DOT | CNAV_I0 | CNAV_I0_DOT
  | CNAV_CIS | CNAV_CIC | CNAV_CRS | CNAV_CRC | CNAV_CUS | CNAV_CUC
  (* message type 30 *)
  | CNAV_TOC | CNAV_URA_NED0 | CNAV_URA_NED1 | CNAV_URA_NED2
  | CNAV_AF0 | CNAV_AF1 | CNAV_AF2
  | CNAV_TGD | CNAV_ISCL1 | CNAV_ISCL2 | CNAV_ISCL5I | CNAV_ISCL5Q
  | CNAV_ALPHA0 | CNAV_ALPHA1 | CNAV_ALPHA2 | CNAV_ALPHA3
  | CNAV_BETA0 | CNAV_BETA1 | CNAV_BETA2 | CNAV_BETA3
  (* message type 33 *)
  | CNAV_A0 | CNAV_A1 | CNAV_A2 | CNAV_DELTA_TLS | CNAV_TOT
  | CNAV_WN_OT | CNAV_WN_LSF | CNAV_DN | CNAV_DELTA_TLSF.

(** [slices f] is the descriptor named [f]; [int_LSB f] is [f_LSB] where
    it scales an [int32_t] member and [double_LSB f] where it scales a
    [double] member. *)
Record catalogue : Type := {
  slices : field -> descriptor;
  int_LSB : field -> Z;
  double_LSB : field -> Double.double
}.

(** The 13 bits 1000000000000 read as an unsigned number: the pattern that
    marks a group delay as not available. *)
Definition NOT_AVAILABLE : Z := 0x1000.

(** The five group-delay fields of message type 30. *)
Definition group_delay_fields : list field :=
  [CNAV_TGD; CNAV_ISCL1; CNAV_ISCL2; CNAV_ISCL5I; CNAV_ISCL5Q].

End Catalogue.

(* ===================================================================== *)
(** * The records the decoder fills *)
(* ===================================================================== *)

(** The members listed are those gps_cnav_navigation_message.cc assigns.
    A member assigned through [static_cast<int32_t>] is an [int32_t], one
    assigned through [static_cast<double>] a [double]. *)

Module Gps_CNAV_Ephemeris.
Import Double.

Record t : Type := {
  i_satellite_PRN : Z;
  d_TOW : Z;
  b_alert_flag : bool;
  i_GPS_week : Z;
  i_signal_health : Z;
  d_Top : Z;
  d_URA0 : double;
  d_Toe1 : Z;
  d_DELTA_A : double;
  d_A_DOT : double;
  d_Delta_n : double;
  d_DELTA_DOT_N : double;
  d_M_0 : double;
  d_e_eccentricity : double;
  d_OMEGA : double;
  b_integrity_status_flag : bool;
  b_l2c_phasing_flag : bool;
  d_Toe2 : Z;
  d_OMEGA0 : double;
  d_DELTA_OMEGA_DOT : double;
  d_i_0 : double;
  d_IDOT : double;
  d_Cis : double;
  d_Cic : double;
  d_Crs : double;
  d_Crc : double;
  d_Cus : double;
  d_Cuc : double;
  d_Toc : Z;
  d_URA1 : double;
  d_URA2 : double;
  d_A_f0 : double;
  d_A_f1 : double;
  d_A_f2 : double;
  d_TGD : double;
  d_ISCL1 : double;
  d_ISCL2 : double;
  d_ISCL5I : double;
  d_ISCL5Q : double
  }.

(** The record with the three members common to all messages blanked:
    two records agree on every other member when their images agree. *)
Definition forget_header (e : t) : t :=
  {| i_satellite_PRN := 0;
     d_TOW := 0;
     b_alert_flag := false;
     i_GPS_week := i_GPS_week e; i_signal_health := i_signal_health e;
     d_Top := d_Top e; d_URA0 := d_URA0 e; d_Toe1 := d_Toe1 e;
     d_DELTA_A := d_DELTA_A e; d_A_DOT := d_A_DOT e;
     d_Delta_n := d_Delta_n e; d_DELTA_DOT_N := d_DELTA_DOT_N e;
     d_M_0 := d_M_0 e; d_e_eccentricity := d_e_eccentricity e;
     d_OMEGA := d_OMEGA e;
     b_integrity_status_flag := b_integrity_status_flag e;
     b_l2c_phasing_flag := b_l2c_phasing_flag e; d_Toe2 := d_Toe2 e;
     d_OMEGA0 := d_OMEGA0 e; d_DELTA_OMEGA_DOT := d_DELTA_OMEGA_DOT e;
     d_i_0 := d_i_0 e; d_IDOT := d_IDOT e; d_Cis := d_Cis e;
     d_Cic := d_Cic e; d_Crs := d_Crs e; d_Crc := d_Crc e; d_Cus := d_Cus e;
     d_Cuc := d_Cuc e; d_Toc := d_Toc e; d_URA1 := d_URA1 e;
     d_URA2 := d_URA2 e; d_A_f0 := d_A_f0 e; d_A_f1 := d_A_f1 e;
     d_A_f2 := d_A_f2 e; d_TGD := d_TGD e; d_ISCL1 := d_ISCL1 e;
     d_ISCL2 := d_ISCL2 e; d_ISCL5I := d_ISCL5I e; d_ISCL5Q := d_ISCL5Q e |}.

Definition zero : t :=
  {| i_satellite_PRN := 0;
     d_TOW := 0;
     b_alert_flag := false;
     i_GPS_week := 0;
     i_signal_health := 0;
     d_Top := 0;
     d_URA0 := Double.zero;
     d_Toe1 := 0;
     d_DELTA_A := Double.zero;
     d_A_DOT := Double.zero;
     d_Delta_n := Double.zero;
     d_DELTA_DOT_N := Double.zero;
     d_M_0 := Double.zero;
     d_e_eccentricity := Double.zero;
     d_OMEGA := Double.zero;
     b_integrity_status_flag := false;
     b_l2c_phasing_flag := false;
     d_Toe2 := 0;
     d_OMEGA0 := Double.zero;
     d_DELTA_OMEGA_DOT := Double.zero;
     d_i_0 := Double.zero;
     d_IDOT := Double.zero;
     d_Cis := Double.zero;
     d_Cic := Double.zero;
     d_Crs := Double.zero;
     d_Crc := Double.zero;
     d_Cus := Double.zero;
     d_Cuc := Double.zero;
     d_Toc := 0;
     d_URA1 := Double.zero;
     d_URA2 := Double.zero;
     d_A_f0 := Double.zero;
     d_A_f1 := Double.zero;
     d_A_f2 := Double.zero;
     d_TGD := Double.zero;
     d_ISCL1 := Double.zero;
     d_ISCL2 := Double.zero;
     d_ISCL5I := Double.zero;
     d_ISCL5Q := Double.zero |}.

(** The member each group-delay field of message type 30 is stored in. *)
Definition group_delay_member (F : Catalogue.field) (e : t) : double :=
  match F with
  | Catalogue.CNAV_TGD => d_TGD e
  | Catalogue.CNAV_ISCL1 => d_ISCL1 e
  | Catalogue.CNAV_ISCL2 => d_ISCL2 e
  | Catalogue.CNAV_ISCL5I => d_ISCL5I e
  | Catalogue.CNAV_ISCL5Q => d_ISCL5Q e
  | _ => Double.zero
  end.

End Gps_CNAV_Ephemeris.

Module Gps_CNAV_Iono.
Import Double.

Record t : Type := {
  d_alpha0 : double;
  d_alpha1 : double;
  d_alpha2 : double;
  d_alpha3 : double;
  d_beta0 : double;
  d_beta1 : double;
  d_beta2 : double;
  d_beta3 : double
  }.

Definition zero : t :=
  {| d_alpha0 := Double.zero;
     d_alpha1 := Double.zero;
     d_alpha2 := Double.zero;
     d_alpha3 := Double.zero;
     d_beta0 := Double.zero;
     d_beta1 := Double.zero;
     d_beta2 := Double.zero;
     d_beta3 := Double.zero |}.

End Gps_CNAV_Iono.

Module Gps_CNAV_Utc_Model.
Import Double.

Record t : Type := {
  d_A0 : double;
  d_A1 : double;
  d_A2 : double;
  d_DeltaT_LS : Z;
  d_t_OT : Z;
  i_WN_T : Z;
  i_WN_LSF : Z;
  i_DN : Z;
  d_DeltaT_LSF : Z;
  valid : bool
  }.

Definition zero : t :=
  {| d_A0 := Double.zero;
     d_A1 := Double.zero;
     d_A2 := Double.zero;
     d_DeltaT_LS := 0;
     d_t_OT := 0;
     i_WN_T := 0;
     i_WN_LSF := 0;
     i_DN := 0;
     d_DeltaT_LSF := 0;
     valid := false |}.

End Gps_CNAV_Utc_Model.

(* ===================================================================== *)
(** * Page decoding, one message type at a time *)
(* ===================================================================== *)

(** The assignments of decode_page grouped by the record they write.  Each
    function returns the record after the assignments of one [case]. *)
Module Pages.
Import Int BitReader Catalogue.

Section Fields.
Variable cat : catalogue.
Variable data_bits : bitset.

(** [static_cast<int32_t>(read_navigation_unsigned(data_bits, F))] *)
Definition int32_unsigned (F : field) : Z :=
  to_int32 (read_navigation_unsigned data_bits (slices cat F)).

(** [static_cast<int32_t>(read_navigation_signed(data_bits, F))] *)
Definition int32_signed (F : field) : Z :=
  to_int32 (read_navigation_signed data_bits (slices cat F)).

(** [static_cast<double>(read_navigation_unsigned(data_bits, F))] *)
Definition double_unsigned (F : field) : Double.double :=
  Double.of_int (read_navigation_unsigned data_bits (slices cat F)).

(** [static_cast<double>(read_navigation_signed(data_bits, F))] *)
Definition double_signed (F : field) : Double.double :=
  Double.of_int (read_navigation_signed data_bits (slices cat F)).

(** The three statements decode_page repeats for TGD and the ISC
    fields: store the signed read, replace it by 0.0 when it is below
    -4095.9, multiply by the scale factor. *)
Definition group_delay (raw lsb : Double.double) : Double.double :=
  let d := raw in
  let d := if Double.ltb d Double.minus_4095_9 then Double.zero else d in
  Double.mul d lsb.

Section Ephemeris.
Import Gps_CNAV_Ephemeris.

(** The record with the three members common to all messages replaced. *)
Definition ephemeris_header (PRN TOW : Z) (alert_flag : bool) (e : t) : t :=
  {| i_satellite_PRN := PRN;
     d_TOW := TOW;
     b_alert_flag := alert_flag;
     i_GPS_week := i_GPS_week e; i_signal_health := i_signal_health e;
     d_Top := d_Top e; d_URA0 := d_URA0 e; d_Toe1 := d_Toe1 e;
     d_DELTA_A := d_DELTA_A e; d_A_DOT := d_A_DOT e;
     d_Delta_n := d_Delta_n e; d_DELTA_DOT_N := d_DELTA_DOT_N e;
     d_M_0 := d_M_0 e; d_e_eccentricity := d_e_eccentricity e;
     d_OMEGA := d_OMEGA e;
     b_integrity_status_flag := b_integrity_status_flag e;
     b_l2c_phasing_flag := b_l2c_phasing_flag e; d_Toe2 := d_Toe2 e;
     d_OMEGA0 := d_OMEGA0 e; d_DELTA_OMEGA_DOT := d_DELTA_OMEGA_DOT e;
     d_i_0 := d_i_0 e; d_IDOT := d_IDOT e; d_Cis := d_Cis e;
     d_Cic := d_Cic e; d_Crs := d_Crs e; d_Crc := d_Crc e; d_Cus := d_Cus e;
     d_Cuc := d_Cuc e; d_Toc := d_Toc e; d_URA1 := d_URA1 e;
     d_URA2 := d_URA2 e; d_A_f0 := d_A_f0 e; d_A_f1 := d_A_f1 e;
     d_A_f2 := d_A_f2 e; d_TGD := d_TGD e; d_ISCL1 := d_ISCL1 e;
     d_ISCL2 := d_ISCL2 e; d_ISCL5I := d_ISCL5I e; d_ISCL5Q := d_ISCL5Q e |}.

(** [ephemeris_record.i_satellite_PRN = PRN] *)
Definition ephemeris_set_PRN (PRN : Z) (e : t) : t :=
  ephemeris_header PRN (d_TOW e) (b_alert_flag e) e.

(** [ephemeris_record.d_TOW = d_TOW] *)
Definition ephemeris_set_TOW (TOW : Z) (e : t) : t :=
  ephemeris_header (i_satellite_PRN e) TOW (b_alert_flag e) e.

(** [ephemeris_record.b_alert_flag = alert_flag] *)
Definition ephemeris_set_alert_flag (alert_flag : bool) (e : t) : t :=
  ephemeris_header (i_satellite_PRN e) (d_TOW e) alert_flag e.

(** case 10: Ephemeris 1/2 *)
Definition ephemeris_type_10 (e : t) : t :=
  {| i_satellite_PRN := i_satellite_PRN e; d_TOW := d_TOW e;
     b_alert_flag := b_alert_flag e;
     i_GPS_week := int32_unsigned CNAV_WN;
     i_signal_health := int32_unsigned CNAV_HEALTH;
     d_Top := mul32 (int32_unsigned CNAV_TOP1) (int_LSB cat CNAV_TOP1);
     d_URA0 := double_signed CNAV_URA;
     d_Toe1 := mul32 (int32_unsigned CNAV_TOE1) (int_LSB cat CNAV_TOE1);
     d_DELTA_A := Double.mul (double_signed CNAV_DELTA_A) (double_LSB cat CNAV_DELTA_A);
     d_A_DOT := Double.mul (double_signed CNAV_A_DOT) (double_LSB cat CNAV_A_DOT);
     d_Delta_n := Double.mul (double_signed CNAV_DELTA_N0) (double_LSB cat CNAV_DELTA_N0);
     d_DELTA_DOT_N := Double.mul (double_signed CNAV_DELTA_N0_DOT) (double_LSB cat CNAV_DELTA_N0_DOT);
     d_M_0 := Double.mul (double_signed CNAV_M0) (double_LSB cat CNAV_M0);
     d_e_eccentricity := Double.mul (double_unsigned CNAV_E_ECCENTRICITY) (double_LSB cat CNAV_E_ECCENTRICITY);
     d_OMEGA := Double.mul (double_signed CNAV_OMEGA) (double_LSB cat CNAV_OMEGA);
     b_integrity_status_flag := read_navigation_bool data_bits (slices cat CNAV_INTEGRITY_FLAG);
     b_l2c_phasing_flag := read_navigation_bool data_bits (slices cat CNAV_L2_PHASING_FLAG);
     d_Toe2 := d_Toe2 e; d_OMEGA0 := d_OMEGA0 e;
     d_DELTA_OMEGA_DOT := d_DELTA_OMEGA_DOT e; d_i_0 := d_i_0 e;
     d_IDOT := d_IDOT e; d_Cis := d_Cis e; d_Cic := d_Cic e;
     d_Crs := d_Crs e; d_Crc := d_Crc e; d_Cus := d_Cus e; d_Cuc := d_Cuc e;
     d_Toc := d_Toc e; d_URA1 := d_URA1 e; d_URA2 := d_URA2 e;
     d_A_f0 := d_A_f0 e; d_A_f1 := d_A_f1 e; d_A_f2 := d_A_f2 e;
     d_TGD := d_TGD e; d_ISCL1 := d_ISCL1 e; d_ISCL2 := d_ISCL2 e;
     d_ISCL5I := d_ISCL5I e; d_ISCL5Q := d_ISCL5Q e |}.

(** case 11: Ephemeris 2/2 *)
Definition ephemeris_type_11 (e : t) : t :=
  {| i_satellite_PRN := i_satellite_PRN e; d_TOW := d_TOW e;
     b_alert_flag := b_alert_flag e; i_GPS_week := i_GPS_week e;
     i_signal_health := i_signal_health e; d_Top := d_Top e;
     d_URA0 := d_URA0 e; d_Toe1 := d_Toe1 e; d_DELTA_A := d_DELTA_A e;
     d_A_DOT := d_A_DOT e; d_Delta_n := d_Delta_n e;
     d_DELTA_DOT_N := d_DELTA_DOT_N e; d_M_0 := d_M_0 e;
     d_e_eccentricity := d_e_eccentricity e; d_OMEGA := d_OMEGA e;
     b_integrity_status_flag := b_integrity_status_flag e;
     b_l2c_phasing_flag := b_l2c_phasing_flag e;
     d_Toe2 := mul32 (int32_unsigned CNAV_TOE2) (int_LSB cat CNAV_TOE2);
     d_OMEGA0 := Double.mul (double_signed CNAV_OMEGA0) (double_LSB cat CNAV_OMEGA0);
     d_DELTA_OMEGA_DOT := Double.mul (double_signed CNAV_DELTA_OMEGA_DOT) (double_LSB cat CNAV_DELTA_OMEGA_DOT);
     d_i_0 := Double.mul (double_signed CNAV_I0) (double_LSB cat CNAV_I0);
     d_IDOT := Double.mul (double_signed CNAV_I0_DOT) (double_LSB cat CNAV_I0_DOT);
     d_Cis := Double.mul (double_signed CNAV_CIS) (double_LSB cat CNAV_CIS);
     d_Cic := Double.mul (double_signed CNAV_CIC) (double_LSB cat CNAV_CIC);
     d_Crs := Double.mul (double_signed CNAV_CRS) (double_LSB cat CNAV_CRS);
     d_Crc := Double.mul (double_signed CNAV_CRC) (double_LSB cat CNAV_CRC);
     d_Cus := Double.mul (double_signed CNAV_CUS) (double_LSB cat CNAV_CUS);
     d_Cuc := Double.mul (double_signed CNAV_CUC) (double_LSB cat CNAV_CUC);
     d_Toc := d_Toc e; d_URA1 := d_URA1 e; d_URA2 := d_URA2 e;
     d_A_f0 := d_A_f0 e; d_A_f1 := d_A_f1 e; d_A_f2 := d_A_f2 e;
     d_TGD := d_TGD e; d_ISCL1 := d_ISCL1 e; d_ISCL2 := d_ISCL2 e;
     d_ISCL5I := d_ISCL5I e; d_ISCL5Q := d_ISCL5Q e |}.

(** case 30: clock and group delays *)
Definition ephemeris_type_30 (e : t) : t :=
  {| i_satellite_PRN := i_satellite_PRN e; d_TOW := d_TOW e;
     b_alert_flag := b_alert_flag e; i_GPS_week := i_GPS_week e;
     i_signal_health := i_signal_health e; d_Top := d_Top e;
     d_URA0 := double_signed CNAV_URA_NED0;
     d_Toe1 := d_Toe1 e; d_DELTA_A := d_DELTA_A e; d_A_DOT := d_A_DOT e;
     d_Delta_n := d_Delta_n e; d_DELTA_DOT_N := d_DELTA_DOT_N e;
     d_M_0 := d_M_0 e; d_e_eccentricity := d_e_eccentricity e;
     d_OMEGA := d_OMEGA e;
     b_integrity_status_flag := b_integrity_status_flag e;
     b_l2c_phasing_flag := b_l2c_phasing_flag e; d_Toe2 := d_Toe2 e;
     d_OMEGA0 := d_OMEGA0 e; d_DELTA_OMEGA_DOT := d_DELTA_OMEGA_DOT e;
     d_i_0 := d_i_0 e; d_IDOT := d_IDOT e; d_Cis := d_Cis e;
     d_Cic := d_Cic e; d_Crs := d_Crs e; d_Crc := d_Crc e; d_Cus := d_Cus e;
     d_Cuc := d_Cuc e;
     d_Toc := mul32 (int32_unsigned CNAV_TOC) (int_LSB cat CNAV_TOC);
     d_URA1 := double_unsigned CNAV_URA_NED1;
     d_URA2 := double_unsigned CNAV_URA_NED2;
     d_A_f0 := Double.mul (double_signed CNAV_AF0) (double_LSB cat CNAV_AF0);
     d_A_f1 := Double.mul (double_signed CNAV_AF1) (double_LSB cat CNAV_AF1);
     d_A_f2 := Double.mul (double_signed CNAV_AF2) (double_LSB cat CNAV_AF2);
     d_TGD := group_delay (double_signed CNAV_TGD) (double_LSB cat CNAV_TGD);
     d_ISCL1 := group_delay (double_signed CNAV_ISCL1) (double_LSB cat CNAV_ISCL1);
     d_ISCL2 := group_delay (double_signed CNAV_ISCL2) (double_LSB cat CNAV_ISCL2);
     d_ISCL5I := group_delay (double_signed CNAV_ISCL5I) (double_LSB cat CNAV_ISCL5I);
     d_ISCL5Q := group_delay (double_signed CNAV_ISCL5Q) (double_LSB cat CNAV_ISCL5Q) |}.

(** case 33: clock *)
Definition ephemeris_type_33 (e : t) : t :=
  {| i_satellite_PRN := i_satellite_PRN e; d_TOW := d_TOW e;
     b_alert_flag := b_alert_flag e; i_GPS_week := i_GPS_week e;
     i_signal_health := i_signal_health e;
     d_Top := mul32 (int32_unsigned CNAV_TOP1) (int_LSB cat CNAV_TOP1);
     d_URA0 := d_URA0 e; d_Toe1 := d_Toe1 e; d_DELTA_A := d_DELTA_A e;
     d_A_DOT := d_A_DOT e; d_Delta_n := d_Delta_n e;
     d_DELTA_DOT_N := d_DELTA_DOT_N e; d_M_0 := d_M_0 e;
     d_e_eccentricity := d_e_eccentricity e; d_OMEGA := d_OMEGA e;
     b_integrity_status_flag := b_integrity_status_flag e;
     b_l2c_phasing_flag := b_l2c_phasing_flag e; d_Toe2 := d_Toe2 e;
     d_OMEGA0 := d_OMEGA0 e; d_DELTA_OMEGA_DOT := d_DELTA_OMEGA_DOT e;
     d_i_0 := d_i_0 e; d_IDOT := d_IDOT e; d_Cis := d_Cis e;
     d_Cic := d_Cic e; d_Crs := d_Crs e; d_Crc := d_Crc e; d_Cus := d_Cus e;
     d_Cuc := d_Cuc e;
     d_Toc := mul32 (int32_unsigned CNAV_TOC) (int_LSB cat CNAV_TOC);
     d_URA1 := d_URA1 e; d_URA2 := d_URA2 e;
     d_A_f0 := Double.mul (double_signed CNAV_AF0) (double_LSB cat CNAV_AF0);
     d_A_f1 := Double.mul (double_signed CNAV_AF1) (double_LSB cat CNAV_AF1);
     d_A_f2 := Double.mul (double_signed CNAV_AF2) (double_LSB cat CNAV_AF2);
     d_TGD := d_TGD e; d_ISCL1 := d_ISCL1 e; d_ISCL2 := d_ISCL2 e;
     d_ISCL5I := d_ISCL5I e; d_ISCL5Q := d_ISCL5Q e |}.

End Ephemeris.

Section Iono.
Import Gps_CNAV_Iono.

(** case 30: iono *)
Definition iono_type_30 (i : t) : t :=
  {| d_alpha0 := Double.mul (double_signed CNAV_ALPHA0) (double_LSB cat CNAV_ALPHA0);
     d_alpha1 := Double.mul (double_signed CNAV_ALPHA1) (double_LSB cat CNAV_ALPHA1);
     d_alpha2 := Double.mul (double_signed CNAV_ALPHA2) (double_LSB cat CNAV_ALPHA2);
     d_alpha3 := Double.mul (double_signed CNAV_ALPHA3) (double_LSB cat CNAV_ALPHA3);
     d_beta0 := Double.mul (double_signed CNAV_BETA0) (double_LSB cat CNAV_BETA0);
     d_beta1 := Double.mul (double_signed CNAV_BETA1) (double_LSB cat CNAV_BETA1);
     d_beta2 := Double.mul (double_signed CNAV_BETA2) (double_LSB cat CNAV_BETA2);
     d_beta3 := Double.mul (double_signed CNAV_BETA3) (double_LSB cat CNAV_BETA3) |}.

End Iono.

Section Utc.
Import Gps_CNAV_Utc_Model.

(** case 33: UTC *)
Definition utc_type_33 (u : t) : t :=
  {| d_A0 := Double.mul (double_signed CNAV_A0) (double_LSB cat CNAV_A0);
     d_A1 := Double.mul (double_signed CNAV_A1) (double_LSB cat CNAV_A1);
     d_A2 := Double.mul (double_signed CNAV_A2) (double_LSB cat CNAV_A2);
     d_DeltaT_LS := mul32 (int32_signed CNAV_DELTA_TLS) (int_LSB cat CNAV_DELTA_TLS);
     d_t_OT := mul32 (int32_signed CNAV_TOT) (int_LSB cat CNAV_TOT);
     i_WN_T := mul32 (int32_signed CNAV_WN_OT) (int_LSB cat CNAV_WN_OT);
     i_WN_LSF := mul32 (int32_signed CNAV_WN_LSF) (int_LSB cat CNAV_WN_LSF);
     i_DN := mul32 (int32_signed CNAV_DN) (int_LSB cat CNAV_DN);
     d_DeltaT_LSF := mul32 (int32_signed CNAV_DELTA_TLSF) (int_LSB cat CNAV_DELTA_TLSF);
     valid := valid u |}.

(** [utc_model_record.valid = true] *)
Definition utc_set_valid (u : t) : t :=
  {| d_A0 := d_A0 u; d_A1 := d_A1 u; d_A2 := d_A2 u;
     d_DeltaT_LS := d_DeltaT_LS u; d_t_OT := d_t_OT u; i_WN_T := i_WN_T u;
     i_WN_LSF := i_WN_LSF u; i_DN := i_DN u; d_DeltaT_LSF := d_DeltaT_LSF u;
     valid := true |}.

End Utc.

End Fields.

End Pages.

(* ===================================================================== *)
(** * The decoder *)
(* ===================================================================== *)

Module Gps_CNAV_Navigation_Message.
Import Int BitReader Catalogue Pages.

Record t : Type := {
  b_flag_ephemeris_1 : bool;
  b_flag_ephemeris_2 : bool;
  b_flag_iono_valid : bool;
  b_flag_utc_valid : bool;
  ephemeris_record : Gps_CNAV_Ephemeris.t;
  iono_record : Gps_CNAV_Iono.t;
  utc_model_record : Gps_CNAV_Utc_Model.t;
  satelliteBlock : gmap Z string;
  d_satpos_X : Double.double;
  d_satpos_Y : Double.double;
  d_satpos_Z : Double.double;
  i_channel_ID : Z;
  i_satellite_PRN : Z;
  d_satvel_X : Double.double;
  d_satvel_Y : Double.double;
  d_satvel_Z : Double.double;
  d_TOW : Z
}.

(** Assignment to the members that decode_page and the publishers write;
    the other members are carried over. *)
Definition assign (m : t) (eph1 eph2 iono_valid utc_valid : bool)
    (eph : Gps_CNAV_Ephemeris.t) (iono : Gps_CNAV_Iono.t)
    (utc : Gps_CNAV_Utc_Model.t) (TOW : Z) : t :=
  {| b_flag_ephemeris_1 := eph1;
     b_flag_ephemeris_2 := eph2;
     b_flag_iono_valid := iono_valid;
     b_flag_utc_valid := utc_valid;
     ephemeris_record := eph;
     iono_record := iono;
     utc_model_record := utc;
     satelliteBlock := satelliteBlock m;
     d_satpos_X := d_satpos_X m; d_satpos_Y := d_satpos_Y m;
     d_satpos_Z := d_satpos_Z m;
     i_channel_ID := i_channel_ID m; i_satellite_PRN := i_satellite_PRN m;
     d_satvel_X := d_satvel_X m; d_satvel_Y := d_satvel_Y m;
     d_satvel_Z := d_satvel_Z m;
     d_TOW := TOW |}.

Definition set_ephemeris_record (eph : Gps_CNAV_Ephemeris.t) (m : t) : t :=
  assign m (b_flag_ephemeris_1 m) (b_flag_ephemeris_2 m) (b_flag_iono_valid m)
    (b_flag_utc_valid m) eph (iono_record m) (utc_model_record m) (d_TOW m).

Definition set_iono_record (iono : Gps_CNAV_Iono.t) (m : t) : t :=
  assign m (b_flag_ephemeris_1 m) (b_flag_ephemeris_2 m) (b_flag_iono_valid m)
    (b_flag_utc_valid m) (ephemeris_record m) iono (utc_model_record m) (d_TOW m).

Definition set_utc_model_record (utc : Gps_CNAV_Utc_Model.t) (m : t) : t :=
  assign m (b_flag_ephemeris_1 m) (b_flag_ephemeris_2 m) (b_flag_iono_valid m)
    (b_flag_utc_valid m) (ephemeris_record m) (iono_record m) utc (d_TOW m).

Definition set_d_TOW (TOW : Z) (m : t) : t :=
  assign m (b_flag_ephemeris_1 m) (b_flag_ephemeris_2 m) (b_flag_iono_valid m)
    (b_flag_utc_valid m) (ephemeris_record m) (iono_record m)
    (utc_model_record m) TOW.

Definition set_b_flag_ephemeris_1 (b : bool) (m : t) : t :=
  assign m b (b_flag_ephemeris_2 m) (b_flag_iono_valid m)
    (b_flag_utc_valid m) (ephemeris_record m) (iono_record m)
    (utc_model_record m) (d_TOW m).

Definition set_b_flag_ephemeris_2 (b : bool) (m : t) : t :=
  assign m (b_flag_ephemeris_1 m) b (b_flag_iono_valid m)
    (b_flag_utc_valid m) (ephemeris_record m) (iono_record m)
    (utc_model_record m) (d_TOW m).

Definition set_b_flag_iono_valid (b : bool) (m : t) : t :=
  assign m (b_flag_ephemeris_1 m) (b_flag_ephemeris_2 m) b
    (b_flag_utc_valid m) (ephemeris_record m) (iono_record m)
    (utc_model_record m) (d_TOW m).

Definition set_b_flag_utc_valid (b : bool) (m : t) : t :=
  assign m (b_flag_ephemeris_1 m) (b_flag_ephemeris_2 m) (b_flag_iono_valid m)
    b (ephemeris_record m) (iono_record m) (utc_model_record m) (d_TOW m).

(** [void Gps_CNAV_Navigation_Message::reset()] *)
Definition reset (m : t) : t :=
  {| b_flag_ephemeris_1 := false;
     b_flag_ephemeris_2 := false;
     b_flag_iono_valid := false;
     b_flag_utc_valid := false;
     ephemeris_record := ephemeris_record m;
     iono_record := iono_record m;
     utc_model_record := utc_model_record m;
     satelliteBlock := satelliteBlock m;
     d_satpos_X := Double.zero; d_satpos_Y := Double.zero;
     d_satpos_Z := Double.zero;
     i_channel_ID := 0; i_satellite_PRN := 0;
     d_satvel_X := Double.zero; d_satvel_Y := Double.zero;
     d_satvel_Z := Double.zero;
     d_TOW := 0 |}.

Section Decode.
Variable cat : catalogue.

(** The statements of decode_page before the [switch]: common to all
    messages. *)
Definition decode_header (data_bits : bitset) (m : t) : t :=
  let PRN := int32_unsigned cat data_bits CNAV_PRN in
  let m := set_ephemeris_record
             (ephemeris_set_PRN PRN (ephemeris_record m)) m in
  let m := set_d_TOW (int32_unsigned cat data_bits CNAV_TOW) m in
  let m := set_d_TOW (mul32 (d_TOW m) (int_LSB cat CNAV_TOW)) m in
  let m := set_ephemeris_record
             (ephemeris_set_TOW (d_TOW m) (ephemeris_record m)) m in
  let alert_flag :=
    read_navigation_bool data_bits (slices cat CNAV_ALERT_FLAG) in
  set_ephemeris_record
    (ephemeris_set_alert_flag alert_flag (ephemeris_record m)) m.

(** [page_type], the value the [switch] dispatches on. *)
Definition page_type (data_bits : bitset) : Z :=
  int32_unsigned cat data_bits CNAV_MSG_TYPE.

Definition decode_type_10 (data_bits : bitset) (m : t) : t :=
  let m := set_ephemeris_record
             (ephemeris_type_10 cat data_bits (ephemeris_record m)) m in
  set_b_flag_ephemeris_1 true m.

Definition decode_type_11 (data_bits : bitset) (m : t) : t :=
  let m := set_ephemeris_record
             (ephemeris_type_11 cat data_bits (ephemeris_record m)) m in
  set_b_flag_ephemeris_2 true m.

Definition decode_type_30 (data_bits : bitset) (m : t) : t :=
  let m := set_ephemeris_record
             (ephemeris_type_30 cat data_bits (ephemeris_record m)) m in
  let m := set_iono_record (iono_type_30 cat data_bits (iono_record m)) m in
  set_b_flag_iono_valid true m.

Definition decode_type_33 (data_bits : bitset) (m : t) : t :=
  let m := set_ephemeris_record
             (ephemeris_type_33 cat data_bits (ephemeris_record m)) m in
  let m := set_utc_model_record
             (utc_type_33 cat data_bits (utc_model_record m)) m in
  set_b_flag_utc_valid true m.

(** [void Gps_CNAV_Navigation_Message::decode_page(data_bits)] *)
Definition decode_page (data_bits : bitset) (m : t) : t :=
  let m := decode_header data_bits m in
  let page_type := page_type data_bits in
  if page_type =? 10 then decode_type_10 data_bits m
  else if page_type =? 11 then decode_type_11 data_bits m
  else if page_type =? 30 then decode_type_30 data_bits m
  else if page_type =? 33 then decode_type_33 data_bits m
  else m.

End Decode.

(** [bool Gps_CNAV_Navigation_Message::have_new_ephemeris()]: the
    returned value and the decoder afterwards. *)
Definition have_new_ephemeris (m : t) : bool * t :=
  if b_flag_ephemeris_1 m && b_flag_ephemeris_2 m then
    if Gps_CNAV_Ephemeris.d_Toe1 (ephemeris_record m)
         =? Gps_CNAV_Ephemeris.d_Toe2 (ephemeris_record m)
    then
      let m := set_b_flag_ephemeris_1 false m in
      let m := set_b_flag_ephemeris_2 false m in
      (true, m)
    else (false, m)
  else (false, m).

Definition get_ephemeris (m : t) : Gps_CNAV_Ephemeris.t * t :=
  (ephemeris_record m, m).

Definition have_new_iono (m : t) : bool * t :=
  if b_flag_iono_valid m then
    let m := set_b_flag_iono_valid false m in
    (true, m)
  else (false, m).

Definition get_iono (m : t) : Gps_CNAV_Iono.t * t :=
  (iono_record m, m).

Definition have_new_utc_model (m : t) : bool * t :=
  if b_flag_utc_valid m then
    let m := set_b_flag_utc_valid false m in
    (true, m)
  else (false, m).

Definition get_utc_model (m : t) : Gps_CNAV_Utc_Model.t * t :=
  let m := set_utc_model_record (utc_set_valid (utc_model_record m)) m in
  (utc_model_record m, m).

(** A decoder with every member zero, false or empty. *)
Definition blank : t :=
  {| b_flag_ephemeris_1 := false;
     b_flag_ephemeris_2 := false;
     b_flag_iono_valid := false;
     b_flag_utc_valid := false;
     ephemeris_record := Gps_CNAV_Ephemeris.zero;
     iono_record := Gps_CNAV_Iono.zero;
     utc_model_record := Gps_CNAV_Utc_Model.zero;
     satelliteBlock := ∅;
     d_satpos_X := Double.zero; d_satpos_Y := Double.zero;
     d_satpos_Z := Double.zero;
     i_channel_ID := 0; i_satellite_PRN := 0;
     d_satvel_X := Double.zero; d_satvel_Y := Double.zero;
     d_satvel_Z := Double.zero;
     d_TOW := 0 |}.

End Gps_CNAV_Navigation_Message.

(* ===================================================================== *)
(** * A catalogue and pages to run the decoder on *)
(* ===================================================================== *)

(** Field positions and scale factors as the message layout of IS-GPS-200
    (Appendix III, message types 10, 11, 30 and 33) gives them, in the
    message's own units.  It stands in for the receiver's table when the
    decoder is evaluated on concrete pages; the results below hold for every
    catalogue. *)
Module Layout.
Import BitReader Catalogue.

Definition layout_slices (f : field) : descriptor :=
  match f with
  | CNAV_PRN => [(9, 6)]
  | CNAV_MSG_TYPE => [(15, 6)]
  | CNAV_TOW => [(21, 17)]
  | CNAV_ALERT_FLAG => [(38, 1)]
  | CNAV_WN => [(39, 13)]
  | CNAV_HEALTH => [(52, 3)]
  | CNAV_TOP1 => [(55, 11)]
  | CNAV_URA => [(66, 5)]
  | CNAV_TOE1 => [(71, 11)]
  | CNAV_DELTA_A => [(82, 26)]
  | CNAV_A_DOT => [(108, 25)]
  | CNAV_DELTA_N0 => [(133, 17)]
  | CNAV_DELTA_N0_DOT => [(150, 23)]
  | CNAV_M0 => [(173, 33)]
  | CNAV_E_ECCENTRICITY => [(206, 33)]
  | CNAV_OMEGA => [(239, 33)]
  | CNAV_INTEGRITY_FLAG => [(272, 1)]
  | CNAV_L2_PHASING_FLAG => [(273, 1)]
  | CNAV_TOE2 => [(39, 11)]
  | CNAV_OMEGA0 => [(50, 33)]
  | CNAV_I0 => [(83, 33)]
  | CNAV_DELTA_OMEGA_DOT => [(116, 17)]
  | CNAV_I0_DOT => [(133, 15)]
  | CNAV_CIS => [(148, 16)]
  | CNAV_CIC => [(164, 16)]
  | CNAV_CRS => [(180, 24)]
  | CNAV_CRC => [(204, 24)]
  | CNAV_CUS => [(228, 21)]
  | CNAV_CUC => [(249, 21)]
  | CNAV_URA_NED0 => [(50, 5)]
  | CNAV_URA_NED1 => [(55, 3)]
  | CNAV_URA_NED2 => [(58, 3)]
  | CNAV_TOC => [(61, 11)]
  | CNAV_AF0 => [(72, 26)]
  | CNAV_AF1 => [(98, 20)]
  | CNAV_AF2 => [(118, 10)]
  | CNAV_TGD => [(128, 13)]
  | CNAV_ISCL1 => [(141, 13)]
  | CNAV_ISCL2 => [(154, 13)]
  | CNAV_ISCL5I => [(167, 13)]
  | CNAV_ISCL5Q => [(180, 13)]
  | CNAV_ALPHA0 => [(193, 8)]
  | CNAV_ALPHA1 => [(201, 8)]
  | CNAV_ALPHA2 => [(209, 8)]
  | CNAV_ALPHA3 => [(217, 8)]
  | CNAV_BETA0 => [(225, 8)]
  | CNAV_BETA1 => [(233, 8)]
  | CNAV_BETA2 => [(241, 8)]
  | CNAV_BETA3 => [(249, 8)]
  | CNAV_A0 => [(128, 16)]
  | CNAV_A1 => [(144, 13)]
  | CNAV_A2 => [(157, 7)]
  | CNAV_DELTA_TLS => [(164, 8)]
  | CNAV_TOT => [(172, 16)]
  | CNAV_WN_OT => [(188, 13)]
  | CNAV_WN_LSF => [(201, 13)]
  | CNAV_DN => [(214, 4)]
  | CNAV_DELTA_TLSF => [(218, 8)]
  end.

Definition layout_int_LSB (f : field) : Z :=
  match f with
  | CNAV_TOW => 6
  | CNAV_TOP1 | CNAV_TOE1 | CNAV_TOE2 | CNAV_TOC => 300
  | CNAV_TOT => 16
  | _ => 1
  end.

(** Exponent of the power of two that weighs the least significant bit. *)
Definition layout_exponent (f : field) : Z :=
  match f with
  | CNAV_DELTA_A => -9
  | CNAV_A_DOT => -21
  | CNAV_DELTA_N0 | CNAV_DELTA_OMEGA_DOT | CNAV_I0_DOT => -44
  | CNAV_DELTA_N0_DOT => -57
  | CNAV_M0 | CNAV_OMEGA | CNAV_OMEGA0 | CNAV_I0 => -32
  | CNAV_E_ECCENTRICITY => -34
  | CNAV_CIS | CNAV_CIC | CNAV_CUS | CNAV_CUC => -30
  | CNAV_CRS | CNAV_CRC => -8
  | CNAV_AF0 => -35
  | CNAV_AF1 => -48
  | CNAV_AF2 => -60
  | CNAV_TGD | CNAV_ISCL1 | CNAV_ISCL2 | CNAV_ISCL5I | CNAV_ISCL5Q => -35
  | CNAV_ALPHA0 => -30
  | CNAV_ALPHA1 => -27
  | CNAV_ALPHA2 | CNAV_ALPHA3 => -24
  | CNAV_BETA0 => 11
  | CNAV_BETA1 => 14
  | CNAV_BETA2 | CNAV_BETA3 => 16
  | CNAV_A0 => -35
  | CNAV_A1 => -51
  | CNAV_A2 => -68
  | _ => 0
  end.

Definition layout : catalogue :=
  {| slices := layout_slices;
     int_LSB := layout_int_LSB;
     double_LSB := fun f => Double.pow2 (layout_exponent f) |}.

(** The page whose only set bits are those of [v] (reduced to [second]
    bits) written in the slice (first, second). *)
Definition put (first second v : Z) : bitset :=
  Z.shiftl (v mod 2 ^ second) (GPS_CNAV_DATA_PAGE_BITS + 1 - first - second).

(** The page holding value [v] in field [f] of [layout], one entry per
    listed field, zero elsewhere. *)
Definition page_of (fields : list (field * Z)) : bitset :=
  fold_right
    (fun fv acc =>
       match layout_slices (fst fv) with
       | (first, second) :: _ => Z.lor (put first second (snd fv)) acc
       | [] => acc
       end)
    0 fields.

(** Satellite 1, a message type the decoder has no case for. *)
Definition page_type_12 : bitset :=
  page_of [(CNAV_PRN, 1); (CNAV_MSG_TYPE, 12); (CNAV_TOW, 100)].

Definition page_type_10 (toe : Z) : bitset :=
  page_of [(CNAV_PRN, 1); (CNAV_MSG_TYPE, 10); (CNAV_TOW, 100); (CNAV_TOE1, toe)].

Definition page_type_11 (toe : Z) : bitset :=
  page_of [(CNAV_PRN, 1); (CNAV_MSG_TYPE, 11); (CNAV_TOW, 102); (CNAV_TOE2, toe)].

(** A type-30 page with the pattern 1000000000000 in TGD and ISCL1, the
    value 5 in ISCL2, -3 in ISCL5I and -4095 in ISCL5Q. *)
Definition page_type_30 : bitset :=
  page_of [(CNAV_PRN, 1); (CNAV_MSG_TYPE, 30); (CNAV_TOW, 104);
           (CNAV_TGD, 4096); (CNAV_ISCL1, 4096); (CNAV_ISCL2, 5);
           (CNAV_ISCL5I, -3); (CNAV_ISCL5Q, -4095)].

Definition page_type_33 : bitset :=
  page_of [(CNAV_PRN, 1); (CNAV_MSG_TYPE, 33); (CNAV_TOW, 106);
           (CNAV_DELTA_TLS, 18)].

End Layout.

(* ===================================================================== *)
(** * The channel state machine *)
(* ===================================================================== *)

Module ChannelFsm.

(** ** Objects shared with the receiver *)

(** Heap addresses, and shared pointers to heap objects: [None] is the
    null pointer a default-constructed [shared_ptr] holds. *)
Definition addr : Type := positive.
Definition sptr : Type := option addr.

(** [operator==] on shared pointers compares the addresses held. *)
Definition sptr_eqb (p q : sptr) : bool := bool_decide (p = q).

(** [gr::msg_queue::make()] (GNU Radio) allocates a new message queue and
    returns a shared pointer to it: an address no live object has. *)
Definition msg_queue_make (live : gset addr) : sptr := Some (fresh live).

(** Modelled from the spec: ControlMessageFactory::GetQueueMessage is
    defined outside channel_fsm.cc; it yields the token (who, what). *)
Definition GetQueueMessage (who what : Z) : Z * Z := (who, what).

(** Calls the state machine makes on the objects it points to. *)
Inductive effect : Type :=
  | acquisition_reset (acq : addr)            (* acq_->reset() *)
  | tracking_start_tracking (trk : addr)      (* trk_->start_tracking() *)
  | queue_handle (queue : addr) (msg : Z * Z) (* queue_->handle(msg) *).

(** ** States and events *)

Inductive state : Type :=
  | channel_idle_fsm_S0
  | channel_acquiring_fsm_S1
  | channel_tracking_fsm_S2
  | channel_waiting_fsm_S3.

Inductive event : Type :=
  | Ev_channel_start_acquisition
  | Ev_channel_valid_acquisition
  | Ev_channel_failed_acquisition_repeat
  | Ev_channel_failed_acquisition_no_repeat
  | Ev_channel_failed_tracking_standby.

(** ** The machine *)

(** The members of ChannelFsm, the active state of the statechart, and the
    surroundings the actions touch: the set of live heap objects and the
    calls made so far, oldest first. *)
Record t : Type := {
  acq_ : sptr;
  trk_ : sptr;
  queue_ : sptr;
  channel_ : Z;
  current : state;
  live : gset addr;
  calls : list effect
}.

(** Dereferencing a null shared pointer is undefined behaviour; a call
    either returns or runs into it. *)
Inductive fault : Type :=
  | null_acq_ | null_trk_ | null_queue_.

Inductive outcome (A : Type) : Type :=
  | Returns (a : A)
  | Undefined (f : fault).

Arguments Returns {A} a.
Arguments Undefined {A} f.

Definition bind {A B : Type} (o : outcome A) (k : A -> outcome B) : outcome B :=
  match o with
  | Returns a => k a
  | Undefined f => Undefined f
  end.

Notation "x <- o ;; k" := (bind o (fun x => k))
  (at level 100, o at next level, right associativity).

Definition call (e : effect) (m : t) : t :=
  {| acq_ := acq_ m; trk_ := trk_ m; queue_ := queue_ m;
     channel_ := channel_ m; current := current m; live := live m;
     calls := calls m ++ [e] |}.

Definition set_current (s : state) (m : t) : t :=
  {| acq_ := acq_ m; trk_ := trk_ m; queue_ := queue_ m;
     channel_ := channel_ m; current := s; live := live m;
     calls := calls m |}.

Definition set_acquisition (acquisition : sptr) (m : t) : t :=
  {| acq_ := acquisition; trk_ := trk_ m; queue_ := queue_ m;
     channel_ := channel_ m; current := current m; live := live m;
     calls := calls m |}.

Definition set_tracking (tracking : sptr) (m : t) : t :=
  {| acq_ := acq_ m; trk_ := tracking; queue_ := queue_ m;
     channel_ := channel_ m; current := current m; live := live m;
     calls := calls m |}.

Definition set_queue (queue : sptr) (m : t) : t :=
  {| acq_ := acq_ m; trk_ := trk_ m; queue_ := queue;
     channel_ := channel_ m; current := current m; live := live m;
     calls := calls m |}.

Definition set_channel (channel : Z) (m : t) : t :=
  {| acq_ := acq_ m; trk_ := trk_ m; queue_ := queue_ m;
     channel_ := channel; current := current m; live := live m;
     calls := calls m |}.

(** ** Actions *)

(** [void ChannelFsm::start_acquisition()] *)
Definition start_acquisition (m : t) : outcome t :=
  match acq_ m with
  | None => Undefined null_acq_
  | Some acq => Returns (call (acquisition_reset acq) m)
  end.

(** [queue_->handle(cmf->GetQueueMessage(channel_, what))] *)
Definition handle (what : Z) (m : t) : outcome t :=
  match queue_ m with
  | None => Undefined null_queue_
  | Some queue =>
      Returns (call (queue_handle queue (GetQueueMessage (channel_ m) what)) m)
  end.

(** [void ChannelFsm::start_tracking()] *)
Definition start_tracking (m : t) : outcome t :=
  match trk_ m with
  | None => Undefined null_trk_
  | Some trk =>
      let m := call (tracking_start_tracking trk) m in
      if negb (sptr_eqb (queue_ m) (msg_queue_make (live m)))
      then handle 1 m
      else Returns m
  end.

(** [void ChannelFsm::request_satellite()] *)
Definition request_satellite (m : t) : outcome t :=
  if negb (sptr_eqb (queue_ m) (msg_queue_make (live m)))
  then handle 0 m
  else Returns m.

(** [void ChannelFsm::notify_stop_tracking()] *)
Definition notify_stop_tracking (m : t) : outcome t :=
  if negb (sptr_eqb (queue_ m) (msg_queue_make (live m)))
  then handle 2 m
  else Returns m.

(** ** The statechart *)

(** The [reactions] of each state: [sc::transition<Event, Destination>]. *)
Definition reactions (s : state) (e : event) : option state :=
  match s with
  | channel_idle_fsm_S0 =>
      match e with
      | Ev_channel_start_acquisition => Some channel_acquiring_fsm_S1
      | _ => None
      end
  | channel_acquiring_fsm_S1 =>
      match e with
      | Ev_channel_failed_acquisition_no_repeat => Some channel_waiting_fsm_S3
      | Ev_channel_failed_acquisition_repeat => Some channel_acquiring_fsm_S1
      | Ev_channel_valid_acquisition => Some channel_tracking_fsm_S2
      | _ => None
      end
  | channel_tracking_fsm_S2 =>
      match e with
      | Ev_channel_failed_tracking_standby => Some channel_idle_fsm_S0
      | Ev_channel_start_acquisition => Some channel_acquiring_fsm_S1
      | _ => None
      end
  | channel_waiting_fsm_S3 =>
      match e with
      | Ev_channel_start_acquisition => Some channel_acquiring_fsm_S1
      | _ => None
      end
  end.

(** The constructor of each state. *)
Definition entry_action (s : state) (m : t) : outcome t :=
  match s with
  | channel_idle_fsm_S0 => Returns m
  | channel_acquiring_fsm_S1 => start_acquisition m
  | channel_tracking_fsm_S2 => start_tracking m
  | channel_waiting_fsm_S3 => request_satellite m
  end.

(** The destructor of each state. *)
Definition exit_action (s : state) (m : t) : outcome t :=
  match s with
  | channel_tracking_fsm_S2 => notify_stop_tracking m
  | _ => Returns m
  end.

(** Entering a state constructs it. *)
Definition enter (s : state) (m : t) : outcome t :=
  m <- entry_action s m ;;
  Returns (set_current s m).

(** [process_event]: an event the active state has no reaction for is
    discarded; a transition destructs the active state, then constructs
    the destination. *)
Definition process_event (e : event) (m : t) : outcome t :=
  match reactions (current m) e with
  | None => Returns m
  | Some destination =>
      m <- exit_action (current m) m ;;
      enter destination m
  end.

(** Modelled from the spec: the class declaration, which names the initial
    state of the statechart, is outside channel_fsm.cc; the initial state
    is IDLE. *)
Definition initial_state : state := channel_idle_fsm_S0.

(** [initiate()] *)
Definition initiate (m : t) : outcome t := enter initial_state m.

(** [ChannelFsm::ChannelFsm()], in surroundings with live objects [objects];
    [queue_] is default-constructed. *)
Definition ChannelFsm (objects : gset addr) : outcome t :=
  initiate
    {| acq_ := None; trk_ := None; queue_ := None; channel_ := 0;
       current := initial_state; live := objects; calls := [] |}.

(** [ChannelFsm::ChannelFsm(acquisition)] *)
Definition ChannelFsm_acquisition (objects : gset addr) (acquisition : sptr)
    : outcome t :=
  initiate
    {| acq_ := acquisition; trk_ := None; queue_ := None; channel_ := 0;
       current := initial_state; live := objects; calls := [] |}.

(** The event members; the logging statements have no counterpart. *)
Definition Event_start_acquisition (m : t) : outcome t :=
  process_event Ev_channel_start_acquisition m.

Definition Event_valid_acquisition (m : t) : outcome t :=
  process_event Ev_channel_valid_acquisition m.

Definition Event_failed_acquisition_repeat (m : t) : outcome t :=
  process_event Ev_channel_failed_acquisition_repeat m.

Definition Event_failed_acquisition_no_repeat (m : t) : outcome t :=
  process_event Ev_channel_failed_acquisition_no_repeat m.

Definition Event_failed_tracking_standby (m : t) : outcome t :=
  process_event Ev_channel_failed_tracking_standby m.

(** ** Vocabulary for stating properties of the machine *)

(** The transition table as the specification lists it, row by row. *)
Definition transition_table (s : state) (e : event) : option state :=
  match s, e with
  | channel_idle_fsm_S0, Ev_channel_start_acquisition =>
      Some channel_acquiring_fsm_S1
  | channel_acquiring_fsm_S1, Ev_channel_valid_acquisition =>
      Some channel_tracking_fsm_S2
  | channel_acquiring_fsm_S1, Ev_channel_failed_acquisition_repeat =>
      Some channel_acquiring_fsm_S1
  | channel_acquiring_fsm_S1, Ev_channel_failed_acquisition_no_repeat =>
      Some channel_waiting_fsm_S3
  | channel_tracking_fsm_S2, Ev_channel_start_acquisition =>
      Some channel_acquiring_fsm_S1
  | channel_tracking_fsm_S2, Ev_channel_failed_tracking_standby =>
      Some channel_idle_fsm_S0
  | channel_waiting_fsm_S3, Ev_channel_start_acquisition =>
      Some channel_acquiring_fsm_S1
  | _, _ => None
  end.

(** The providers and the queue are bound to live objects. *)
Definition bound (m : t) (acq trk queue : addr) : Prop :=
  acq_ m = Some acq /\ trk_ m = Some trk /\ queue_ m = Some queue /\
  queue ∈ live m.

(** The dispatch queue is unbound (null) or points to a live object. *)
Definition queue_valid (m : t) : Prop :=
  match queue_ m with
  | None => True
  | Some queue => queue ∈ live m
  end.

(** Effects the specification gives the entry and exit actions of a state,
    for providers [acq], [trk], queue [queue] and channel [channel]. *)
Definition entry_effects (acq trk queue : addr) (channel : Z) (s : state)
    : list effect :=
  match s with
  | channel_idle_fsm_S0 => []
  | channel_acquiring_fsm_S1 => [acquisition_reset acq]
  | channel_tracking_fsm_S2 =>
      [tracking_start_tracking trk; queue_handle queue (channel, 1)]
  | channel_waiting_fsm_S3 => [queue_handle queue (channel, 0)]
  end.

Definition exit_effects (queue : addr) (channel : Z) (s : state) : list effect :=
  match s with
  | channel_tracking_fsm_S2 => [queue_handle queue (channel, 2)]
  | _ => []
  end.

(** The machine [m] moved to state [s] after the further calls [es]. *)
Definition moved (m : t) (s : state) (es : list effect) : t :=
  {| acq_ := acq_ m; trk_ := trk_ m; queue_ := queue_ m;
     channel_ := channel_ m; current := s; live := live m;
     calls := calls m ++ es |}.

End ChannelFsm.

(* ===================================================================== *)
(** * Construction of the decoder and runs of pages and events *)
(* ===================================================================== *)

Module Construction.
Import Gps_CNAV_Navigation_Message.

(** The members when the body of the constructor starts: the three records
    as their own constructors leave them, the map empty.  The scalar
    members are not initialised; reset() assigns every one of them before
    anything reads it, and they are written as zero or false here. *)
Definition members (eph : Gps_CNAV_Ephemeris.t) (iono : Gps_CNAV_Iono.t)
    (utc : Gps_CNAV_Utc_Model.t) : t :=
  {| b_flag_ephemeris_1 := false;
     b_flag_ephemeris_2 := false;
     b_flag_iono_valid := false;
     b_flag_utc_valid := false;
     ephemeris_record := eph;
     iono_record := iono;
     utc_model_record := utc;
     satelliteBlock := ∅;
     d_satpos_X := Double.zero; d_satpos_Y := Double.zero;
     d_satpos_Z := Double.zero;
     i_channel_ID := 0; i_satellite_PRN := 0;
     d_satvel_X := Double.zero; d_satvel_Y := Double.zero;
     d_satvel_Z := Double.zero;
     d_TOW := 0 |}.

(** Assignment to [satelliteBlock]. *)
Definition set_satelliteBlock (blocks : gmap Z string) (m : t) : t :=
  {| b_flag_ephemeris_1 := b_flag_ephemeris_1 m;
     b_flag_ephemeris_2 := b_flag_ephemeris_2 m;
     b_flag_iono_valid := b_flag_iono_valid m;
     b_flag_utc_valid := b_flag_utc_valid m;
     ephemeris_record := ephemeris_record m;
     iono_record := iono_record m;
     utc_model_record := utc_model_record m;
     satelliteBlock := blocks;
     d_satpos_X := d_satpos_X m; d_satpos_Y := d_satpos_Y m;
     d_satpos_Z := d_satpos_Z m;
     i_channel_ID := i_channel_ID m; i_satellite_PRN := i_satellite_PRN m;
     d_satvel_X := d_satvel_X m; d_satvel_Y := d_satvel_Y m;
     d_satvel_Z := d_satvel_Z m;
     d_TOW := d_TOW m |}.

(** The loop [for (prn_ = 1; prn_ < 33; prn_++)] of the constructor, with
    [n] iterations of fuel: [satelliteBlock[prn_] = what_block("GPS", prn_)].
    [Gnss_Satellite::what_block] is defined outside the decoder's source
    file and enters as a parameter. *)
Fixpoint fill_blocks (what_block : string -> Z -> string) (n : nat) (prn_ : Z)
    (blocks : gmap Z string) : gmap Z string :=
  match n with
  | O => blocks
  | S n' =>
      if prn_ <? 33
      then fill_blocks what_block n' (prn_ + 1)
             (<[prn_ := what_block "GPS"%string prn_]> blocks)
      else blocks
  end.

(** [Gps_CNAV_Navigation_Message::Gps_CNAV_Navigation_Message()]; 32
    iterations exhaust the loop. *)
Definition Gps_CNAV_Navigation_Message (what_block : string -> Z -> string)
    (eph : Gps_CNAV_Ephemeris.t) (iono : Gps_CNAV_Iono.t)
    (utc : Gps_CNAV_Utc_Model.t) : t :=
  let m := reset (members eph iono utc) in
  let m := set_satelliteBlock
             (fill_blocks what_block 32 1 (satelliteBlock m)) m in
  let m := set_b_flag_iono_valid false m in
  set_b_flag_utc_valid false m.

(** A caller decoding the pages of a list one after the other. *)
Definition decode_pages (cat : Catalogue.catalogue)
    (pages : list BitReader.bitset) (m : t) : t :=
  fold_left (fun m data_bits => decode_page cat data_bits m) pages m.

End Construction.

Module ChannelRuns.
Import ChannelFsm.

(** A caller delivering the events of a list one after the other; the run
    stops at the first call that does not return. *)
Fixpoint run (es : list event) (m : t) : outcome t :=
  match es with
  | [] => Returns m
  | e :: es' => m <- process_event e m ;; run es' m
  end.

(** Number of control messages with code [what] among the calls. *)
Fixpoint count_what (what : Z) (cs : list effect) : nat :=
  match cs with
  | [] => O
  | queue_handle _ (_, w) :: cs' =>
      if w =? what then S (count_what what cs') else count_what what cs'
  | _ :: cs' => count_what what cs'
  end.

(** Number of calls of [start_tracking] on a tracking provider. *)
Fixpoint count_start_tracking (cs : list effect) : nat :=
  match cs with
  | [] => O
  | tracking_start_tracking _ :: cs' => S (count_start_tracking cs')
  | _ :: cs' => count_start_tracking cs'
  end.

(** 1 in TRACKING, 0 in every other state. *)
Definition tracking_now (s : state) : nat :=
  match s with
  | channel_tracking_fsm_S2 => 1%nat
  | _ => O
  end.

(** The notifications on the queue match the state: one more tracking
    started than tracking stopped in TRACKING, as many elsewhere, and
    one tracking started for every call of start_tracking. *)
Definition balanced (m : t) : Prop :=
  count_what 1 (calls m)
    = (count_what 2 (calls m) + tracking_now (current m))%nat
  /\ count_start_tracking (calls m) = count_what 1 (calls m).

End ChannelRuns.

(* ===================================================================== *)
(** * Properties of the bit-field reader *)
(* ===================================================================== *)

Module BitReaderFacts.
Import Int BitReader.

(** Closes [is_page bits] for a concrete block of bits. *)
Ltac page_in_range := vm_compute; split; [discriminate | reflexivity].

Lemma wrap_u64_range z : 0 <= wrap_u64 z < 2 ^ 64.
Proof. unfold wrap_u64. apply Z.mod_pos_bound. lia. Qed.

Lemma wrap_s64_range z : - 2 ^ 63 <= wrap_s64 z < 2 ^ 63.
Proof.
  unfold wrap_s64.
  pose proof (Z.mod_pos_bound (z + 2 ^ 63) (2 ^ 64) ltac:(lia)). lia.
Qed.

Lemma eqm_refl a : eqm a a.
Proof. reflexivity. Qed.

Lemma eqm_trans a b c : eqm a b -> eqm b c -> eqm a c.
Proof. unfold eqm. congruence. Qed.

Lemma eqm_wrap_u64 z : eqm (wrap_u64 z) z.
Proof. unfold eqm, wrap_u64. apply Z.mod_mod. lia. Qed.

Lemma eqm_wrap_s64 z : eqm (wrap_s64 z) z.
Proof.
  unfold eqm, wrap_s64.
  rewrite Zminus_mod, Z.mod_mod by lia.
  rewrite <- Zminus_mod. f_equal. lia.
Qed.

Lemma eqm_step a b c : eqm a b -> eqm (2 * a + c) (2 * b + c).
Proof.
  unfold eqm. intros H.
  rewrite (Z.add_mod (2 * a)), (Z.add_mod (2 * b)) by lia.
  rewrite (Z.mul_mod 2 a), (Z.mul_mod 2 b) by lia.
  now rewrite H.
Qed.

Lemma eqm_small a b :
  eqm a b -> 0 <= a < 2 ^ 64 -> 0 <= b < 2 ^ 64 -> a = b.
Proof.
  unfold eqm. intros H Ha Hb.
  rewrite !Z.mod_small in H by lia. exact H.
Qed.

Lemma eqm_small_signed a b :
  eqm a b -> - 2 ^ 63 <= a < 2 ^ 63 -> - 2 ^ 63 <= b < 2 ^ 63 -> a = b.
Proof.
  unfold eqm. intros H Ha Hb.
  assert (E : (a + 2 ^ 63) mod 2 ^ 64 = (b + 2 ^ 63) mod 2 ^ 64).
  { rewrite (Z.add_mod a), (Z.add_mod b) by lia. now rewrite H. }
  rewrite !Z.mod_small in E by lia. lia.
Qed.

Lemma land_clear_lsb x :
  0 <= x < 2 ^ 64 -> x mod 2 = 0 -> Z.land x CLEAR_LSB = x.
Proof.
  intros Hx Hev.
  assert (Ex : x = Z.shiftl (x / 2) 1).
  { rewrite Z.shiftl_mul_pow2 by lia.
    pose proof (Z.div_mod x 2 ltac:(lia)). lia. }
  assert (Ec : CLEAR_LSB = Z.shiftl (Z.ones 63) 1) by reflexivity.
  rewrite Ec. rewrite Ex at 1.
  rewrite <- Z.shiftl_land, Z.land_ones by lia.
  rewrite Z.mod_small.
  - symmetry. exact Ex.
  - split; [apply Z.div_pos; lia | apply Z.div_lt_upper_bound; lia].
Qed.

Lemma unsigned_slice_eqm bits first n : forall j v w,
  eqm v w ->
  eqm (unsigned_slice bits first j n v) (concat_slice bits first j n w).
Proof.
  induction n as [|n IH]; intros j v w H; simpl; [exact H|].
  apply IH.
  assert (H2 : eqm (wrap_u64 (Z.shiftl v 1)) (2 * w)).
  { eapply eqm_trans; [apply eqm_wrap_u64|].
    rewrite Z.shiftl_mul_pow2 by lia.
    replace (v * 2 ^ 1) with (2 * v + 0) by lia.
    replace (2 * w) with (2 * w + 0) by lia.
    now apply eqm_step. }
  destruct (bit bits _); simpl.
  - eapply eqm_trans; [apply eqm_wrap_u64|].
    unfold eqm in *. rewrite Z.add_mod, H2, <- Z.add_mod by lia. reflexivity.
  - now rewrite Z.add_0_r.
Qed.

Lemma signed_slice_eqm bits first n : forall j v w,
  eqm v w ->
  eqm (signed_slice bits first j n v) (concat_slice bits first j n w).
Proof.
  induction n as [|n IH]; intros j v w H; simpl; [exact H|].
  apply IH.
  assert (H1 : eqm (wrap_s64 (v * 2)) (2 * w)).
  { eapply eqm_trans; [apply eqm_wrap_s64|].
    replace (v * 2) with (2 * v + 0) by lia.
    replace (2 * w) with (2 * w + 0) by lia.
    now apply eqm_step. }
  assert (H2 : eqm (wrap_s64 (Z.land (wrap_u64 (wrap_s64 (v * 2))) CLEAR_LSB))
                   (2 * w)).
  { eapply eqm_trans; [apply eqm_wrap_s64|].
    rewrite land_clear_lsb.
    - eapply eqm_trans; [apply eqm_wrap_u64 | exact H1].
    - apply wrap_u64_range.
    - unfold wrap_u64. rewrite H1.
      replace (2 ^ 64) with (2 * 2 ^ 63) by reflexivity.
      rewrite Z.rem_mul_r by lia.
      rewrite Z.mul_comm, Z.mod_mul by lia.
      rewrite Z.add_0_l, Z.mul_comm, Z.mod_mul; lia. }
  destruct (bit bits _); simpl.
  - eapply eqm_trans; [apply eqm_wrap_s64|].
    unfold eqm in *. rewrite Z.add_mod, H2, <- Z.add_mod by lia. reflexivity.
  - now rewrite Z.add_0_r.
Qed.

Lemma unsigned_slices_eqm bits parameter : forall v w,
  eqm v w ->
  eqm (unsigned_slices bits parameter v) (concat_slices bits parameter w).
Proof.
  induction parameter as [|[first second] rest IH]; intros v w H; simpl;
    [exact H|].
  apply IH. now apply unsigned_slice_eqm.
Qed.

Lemma signed_slices_eqm bits parameter : forall v w,
  eqm v w ->
  eqm (signed_slices bits parameter v) (concat_slices bits parameter w).
Proof.
  induction parameter as [|[first second] rest IH]; intros v w H; simpl;
    [exact H|].
  apply IH. now apply signed_slice_eqm.
Qed.

(** Accumulating [n] bits onto [v] shifts [v] by [n] places and adds the
    bits, themselves a number below 2^n. *)
Lemma concat_slice_shift bits first n : forall j v,
  concat_slice bits first j n v
    = v * 2 ^ Z.of_nat n + concat_slice bits first j n 0
  /\ 0 <= concat_slice bits first j n 0 < 2 ^ Z.of_nat n.
Proof.
  induction n as [|n IH]; intros j v.
  - simpl. lia.
  - cbn [concat_slice].
    destruct (IH (j + 1) (2 * v + Z.b2z (bit bits (GPS_CNAV_DATA_PAGE_BITS - first - j))))
      as [E1 _].
    destruct (IH (j + 1) (2 * 0 + Z.b2z (bit bits (GPS_CNAV_DATA_PAGE_BITS - first - j))))
      as [E2 R].
    rewrite E1, E2.
    rewrite Nat2Z.inj_succ, Z.pow_succ_r by lia.
    destruct (bit bits _); simpl Z.b2z; nia.
Qed.

Lemma field_width_nonneg parameter : 0 <= field_width parameter.
Proof.
  induction parameter as [|s rest IH]; simpl; [lia|].
  unfold field_width in *. simpl. lia.
Qed.

Lemma field_width_cons first second rest :
  field_width ((first, second) :: rest)
    = Z.of_nat (Z.to_nat second) + field_width rest.
Proof. reflexivity. Qed.

Lemma concat_slices_shift bits parameter : forall v,
  concat_slices bits parameter v
    = v * 2 ^ field_width parameter + concat_slices bits parameter 0
  /\ 0 <= concat_slices bits parameter 0 < 2 ^ field_width parameter.
Proof.
  induction parameter as [|[first second] rest IH]; intros v.
  - simpl. unfold field_width. simpl. lia.
  - cbn [concat_slices]. rewrite field_width_cons.
    pose proof (field_width_nonneg rest) as Hw.
    destruct (concat_slice_shift bits first (Z.to_nat second) 0 v) as [E1 _].
    destruct (concat_slice_shift bits first (Z.to_nat second) 0 0) as [_ R1].
    destruct (IH (concat_slice bits first 0 (Z.to_nat second) v)) as [E2 _].
    destruct (IH (concat_slice bits first 0 (Z.to_nat second) 0)) as [E3 R2].
    rewrite E2, E3, E1.
    rewrite Z.pow_add_r by lia.
    split; [ring|]. nia.
Qed.

(** With a non-empty first slice the leading bit of the concatenation is
    the bit at the first slice's start. *)
Lemma concat_slices_top bits first second rest :
  1 <= second ->
  let n := field_width ((first, second) :: rest) in
  exists r, 0 <= r < 2 ^ (n - 1) /\
    concat_slices bits ((first, second) :: rest) 0
      = Z.b2z (bit bits (GPS_CNAV_DATA_PAGE_BITS - first)) * 2 ^ (n - 1) + r.
Proof.
  intros Hs n. subst n. rewrite field_width_cons.
  pose proof (field_width_nonneg rest) as Hw.
  cbn [concat_slices].
  destruct (Z.to_nat second) as [|m] eqn:Em; [lia|].
  cbn [concat_slice].
  replace (GPS_CNAV_DATA_PAGE_BITS - first - 0)
    with (GPS_CNAV_DATA_PAGE_BITS - first) by lia.
  replace (0 + 1) with 1 by lia.
  set (b := Z.b2z (bit bits (GPS_CNAV_DATA_PAGE_BITS - first))).
  replace (2 * 0 + b) with b by lia.
  destruct (concat_slice_shift bits first m 1 b) as [E1 _].
  destruct (concat_slice_shift bits first m 1 0) as [_ R1].
  destruct (concat_slices_shift bits rest (concat_slice bits first 1 m b))
    as [E2 R2].
  exists (concat_slice bits first 1 m 0 * 2 ^ field_width rest
          + concat_slices bits rest 0).
  rewrite E2, E1.
  replace (Z.of_nat (S m) + field_width rest - 1)
    with (Z.of_nat m + field_width rest) by lia.
  rewrite Z.pow_add_r by lia.
  split; [nia | ring].
Qed.

Lemma unsigned_slice_range bits first n : forall j v,
  0 <= v < 2 ^ 64 -> 0 <= unsigned_slice bits first j n v < 2 ^ 64.
Proof.
  induction n as [|n IH]; intros j v Hv; simpl; [exact Hv|].
  apply IH. destruct (bit bits _); apply wrap_u64_range.
Qed.

Lemma unsigned_slices_range bits parameter : forall v,
  0 <= v < 2 ^ 64 -> 0 <= unsigned_slices bits parameter v < 2 ^ 64.
Proof.
  induction parameter as [|[first second] rest IH]; intros v Hv; simpl;
    [exact Hv|].
  apply IH. now apply unsigned_slice_range.
Qed.

Lemma signed_slice_range bits first n : forall j v,
  - 2 ^ 63 <= v < 2 ^ 63 -> - 2 ^ 63 <= signed_slice bits first j n v < 2 ^ 63.
Proof.
  induction n as [|n IH]; intros j v Hv; simpl; [exact Hv|].
  apply IH. destruct (bit bits _); apply wrap_s64_range.
Qed.

Lemma signed_slices_range bits parameter : forall v,
  - 2 ^ 63 <= v < 2 ^ 63 -> - 2 ^ 63 <= signed_slices bits parameter v < 2 ^ 63.
Proof.
  induction parameter as [|[first second] rest IH]; intros v Hv; simpl;
    [exact Hv|].
  apply IH. now apply signed_slice_range.
Qed.

(** The unsigned read is the concatenation itself once it fits 64 bits. *)
Lemma read_navigation_unsigned_concat bits parameter :
  field_width parameter <= 64 ->
  read_navigation_unsigned bits parameter = concat_slices bits parameter 0.
Proof.
  intros Hn. unfold read_navigation_unsigned.
  destruct (concat_slices_shift bits parameter 0) as [_ R].
  pose proof (field_width_nonneg parameter) as Hw.
  assert (2 ^ field_width parameter <= 2 ^ 64)
    by (apply Z.pow_le_mono_r; lia).
  apply eqm_small.
  - apply unsigned_slices_eqm, eqm_refl.
  - apply unsigned_slices_range. lia.
  - lia.
Qed.

(** The value read_navigation_signed starts its loops from. *)
Lemma signed_start (sign : bool) :
  (if sign then wrap_s64 (Z.lxor (wrap_u64 0) ALL_ONES) else Z.land 0 0)
    = - Z.b2z sign.
Proof. destruct sign; reflexivity. Qed.

(** Decomposition shared by the results on signed fields: the unsigned
    read is [b * 2^(n-1) + r] with [b] the leading bit, and the signed
    read is the same number with weight [- 2^(n-1)] on the leading bit. *)
Lemma signed_unsigned_split bits first second rest :
  1 <= second ->
  let parameter := (first, second) :: rest in
  let n := field_width parameter in
  let b := Z.b2z (bit bits (GPS_CNAV_DATA_PAGE_BITS - first)) in
  n <= 64 ->
  exists r, 0 <= r < 2 ^ (n - 1) /\
    read_navigation_unsigned bits parameter = b * 2 ^ (n - 1) + r /\
    read_navigation_signed bits parameter = r - b * 2 ^ (n - 1).
Proof.
  intros Hs parameter n b Hn.
  destruct (concat_slices_top bits first second rest Hs) as (r & Hr & Etop).
  fold parameter in Etop. fold n in Etop. fold b in Etop.
  assert (Hr' : 0 <= r < 2 ^ (n - 1)) by exact Hr.
  assert (Hn1 : 1 <= n).
  { subst n parameter. rewrite field_width_cons.
    pose proof (field_width_nonneg rest). lia. }
  assert (Hp : 0 < 2 ^ (n - 1) <= 2 ^ 63).
  { split; [apply Z.pow_pos_nonneg; lia | apply Z.pow_le_mono_r; lia]. }
  assert (E2 : 2 ^ n = 2 * 2 ^ (n - 1)).
  { rewrite <- Z.pow_succ_r by lia. f_equal. lia. }
  exists r. split; [exact Hr|]. split.
  - rewrite read_navigation_unsigned_concat by exact Hn. exact Etop.
  - unfold read_navigation_signed. cbv zeta.
    change (fst (front parameter)) with first.
    rewrite signed_start. fold b.
    destruct (concat_slices_shift bits parameter (- b)) as [E _].
    fold n in E. rewrite Etop, E2 in E.
    assert (Hb : b = 0 \/ b = 1) by (subst b; destruct (bit bits _); simpl; lia).
    clearbody b.
    apply eqm_small_signed.
    + eapply eqm_trans; [apply signed_slices_eqm, eqm_refl|].
      rewrite E. replace (- b * (2 * 2 ^ (n - 1)) + (b * 2 ^ (n - 1) + r))
        with (r - b * 2 ^ (n - 1)) by ring.
      apply eqm_refl.
    + apply signed_slices_range. clear - Hb. lia.
    + clear - Hb Hr' Hp.
      generalize dependent (2 ^ (n - 1)). intros P Hr' Hp.
      destruct Hb as [-> | ->]; lia.
Qed.

(** Bits of a non-negative number below 2^n vanish from position n on. *)
Lemma testbit_above_small u n k :
  0 <= u < 2 ^ n -> 0 <= n <= k -> Z.testbit u k = false.
Proof.
  intros Hu Hk. rewrite <- (Z.mod_small u (2 ^ n)) by lia.
  apply Z.mod_pow2_bits_high. lia.
Qed.

(** Bits of a negative number not below -2^n are all set from position
    n on. *)
Lemma testbit_above_neg x n k :
  - 2 ^ n <= x < 0 -> 0 <= n <= k -> Z.testbit x k = true.
Proof.
  intros Hx Hk.
  replace x with (- (- x)) by lia.
  rewrite Z.bits_opp by lia.
  rewrite (testbit_above_small (Z.pred (- x)) n k); [reflexivity | lia | lia].
Qed.

(** C6. For a page [bits] and a well-formed field descriptor of total
    width n <= 64, read_navigation_signed equals read_navigation_unsigned
    minus 2^n when the first extracted bit B[s1] is 1 and equals
    read_navigation_unsigned when it is 0; in the 64-bit result every bit
    from position n upwards equals that sign bit. *)
Theorem read_navigation_signed_sign_extends
    (bits : bitset) (parameter : descriptor) :
  is_page bits ->
  well_formed parameter ->
  field_width parameter <= 64 ->
  let n := field_width parameter in
  let sign := bit bits (GPS_CNAV_DATA_PAGE_BITS - fst (front parameter)) in
  read_navigation_signed bits parameter
    = (if sign then read_navigation_unsigned bits parameter - 2 ^ n
       else read_navigation_unsigned bits parameter)
  /\ (forall k, n <= k < 64 ->
        Z.testbit (wrap_u64 (read_navigation_signed bits parameter)) k = sign).
Proof.
  intros _ (_ & Hfirst & Hne) Hn n sign.
  destruct parameter as [|[first second] rest]; [congruence|].
  change (snd (front ((first, second) :: rest))) with second in Hfirst.
  change (fst (front ((first, second) :: rest))) with first in sign.
  destruct (signed_unsigned_split bits first second rest Hfirst Hn)
    as (r & Hr & Eu & Es).
  fold n in Hr, Eu, Es. fold sign in Eu, Es.
  assert (Hn1 : 1 <= n).
  { subst n. rewrite field_width_cons.
    pose proof (field_width_nonneg rest). lia. }
  assert (E2 : 2 ^ n = 2 * 2 ^ (n - 1)).
  { rewrite <- Z.pow_succ_r by lia. f_equal. lia. }
  assert (Hp : 0 < 2 ^ (n - 1)) by (apply Z.pow_pos_nonneg; lia).
  split.
  - rewrite Es, Eu, E2. destruct sign; simpl Z.b2z; lia.
  - intros k Hk. unfold wrap_u64.
    rewrite Z.mod_pow2_bits_low by lia.
    rewrite Es. destruct sign; simpl Z.b2z.
    + apply (testbit_above_neg _ n); lia.
    + apply (testbit_above_small _ n); lia.
Qed.

(** The theorem at the TGD field (bits 128..140) of a page holding the
    pattern 1000000000000 there: the sign bit is set and the signed read is
    the unsigned read minus 2^13. *)
Lemma read_navigation_signed_sign_extends_witness :
  let bits := Z.shiftl 0x1000 160 in
  let parameter := [(128, 13)] in
  is_page bits
  /\ well_formed parameter
  /\ field_width parameter <= 64
  /\ read_navigation_signed bits parameter
       = read_navigation_unsigned bits parameter - 2 ^ 13
  /\ Z.testbit (wrap_u64 (read_navigation_signed bits parameter)) 63 = true.
Proof.
  intros bits parameter.
  assert (Hp : is_page bits)
    by page_in_range.
  assert (Hw : well_formed parameter).
  { split; [| split; [simpl; lia | discriminate]].
    constructor;
      [unfold slice_in_page, GPS_CNAV_DATA_PAGE_BITS; simpl; lia | constructor]. }
  assert (Hn : field_width parameter <= 64) by (vm_compute; discriminate).
  split; [exact Hp |]. split; [exact Hw |]. split; [exact Hn |].
  destruct (read_navigation_signed_sign_extends bits parameter Hp Hw Hn)
    as [Hs Hk].
  split; [exact Hs |].
  apply (Hk 63). split; [vm_compute; discriminate | lia].
Defined.

End BitReaderFacts.

(* ===================================================================== *)
(** * Properties of the CNAV decoder *)
(* ===================================================================== *)

Module DecoderFacts.
Import Int BitReader BitReaderFacts Catalogue Pages Layout.
Import Gps_CNAV_Navigation_Message.

(** Rewrites the switch of decode_page with the known value of the
    message type. *)
Ltac take_case H := unfold decode_page; cbv zeta; now rewrite H.

Section Dispatch.
Variable cat : catalogue.
Variable data_bits : bitset.
Variable m : t.

Lemma decode_page_10 :
  page_type cat data_bits = 10 ->
  decode_page cat data_bits m
    = decode_type_10 cat data_bits (decode_header cat data_bits m).
Proof. intros H. take_case H. Qed.

Lemma decode_page_11 :
  page_type cat data_bits = 11 ->
  decode_page cat data_bits m
    = decode_type_11 cat data_bits (decode_header cat data_bits m).
Proof. intros H. take_case H. Qed.

Lemma decode_page_30 :
  page_type cat data_bits = 30 ->
  decode_page cat data_bits m
    = decode_type_30 cat data_bits (decode_header cat data_bits m).
Proof. intros H. take_case H. Qed.

Lemma decode_page_33 :
  page_type cat data_bits = 33 ->
  decode_page cat data_bits m
    = decode_type_33 cat data_bits (decode_header cat data_bits m).
Proof. intros H. take_case H. Qed.

Lemma decode_page_default :
  ~ In (page_type cat data_bits) [10; 11; 30; 33] ->
  decode_page cat data_bits m = decode_header cat data_bits m.
Proof.
  intros H. unfold decode_page. cbv zeta.
  repeat match goal with
         | |- context [?a =? ?b] =>
             destruct (Z.eqb_spec a b) as [E | _];
             [exfalso; apply H; rewrite E; simpl; tauto |]
         end.
  reflexivity.
Qed.

(** The dispatch is exhaustive: one of the four cases or none. *)
Lemma decode_page_cases :
  decode_page cat data_bits m
    = decode_type_10 cat data_bits (decode_header cat data_bits m)
  \/ decode_page cat data_bits m
    = decode_type_11 cat data_bits (decode_header cat data_bits m)
  \/ decode_page cat data_bits m
    = decode_type_30 cat data_bits (decode_header cat data_bits m)
  \/ decode_page cat data_bits m
    = decode_type_33 cat data_bits (decode_header cat data_bits m)
  \/ decode_page cat data_bits m = decode_header cat data_bits m.
Proof.
  unfold decode_page. cbv zeta.
  destruct (page_type cat data_bits =? 10); [left; reflexivity |].
  destruct (page_type cat data_bits =? 11); [right; left; reflexivity |].
  destruct (page_type cat data_bits =? 30);
    [right; right; left; reflexivity |].
  destruct (page_type cat data_bits =? 33);
    [right; right; right; left; reflexivity |].
  right; right; right; right; reflexivity.
Qed.

End Dispatch.

(** C10. Every call of decode_page, whatever the page and its message
    type, stores in the ephemeris record the PRN read from the page, the
    TOW count multiplied by CNAV_TOW_LSB and the alert flag; the record
    already holds them when the switch on the message type is reached. *)
Theorem decode_page_common_header
    (cat : catalogue) (data_bits : bitset) (m : t) :
  is_page data_bits ->
  let PRN := to_int32 (read_navigation_unsigned data_bits (slices cat CNAV_PRN)) in
  let TOW :=
    mul32 (to_int32 (read_navigation_unsigned data_bits (slices cat CNAV_TOW)))
          (int_LSB cat CNAV_TOW) in
  let alert_flag := read_navigation_bool data_bits (slices cat CNAV_ALERT_FLAG) in
  let header_of (m' : t) :=
    (Gps_CNAV_Ephemeris.i_satellite_PRN (ephemeris_record m'),
     Gps_CNAV_Ephemeris.d_TOW (ephemeris_record m'),
     Gps_CNAV_Ephemeris.b_alert_flag (ephemeris_record m')) in
  header_of (decode_header cat data_bits m) = (PRN, TOW, alert_flag)
  /\ header_of (decode_page cat data_bits m) = (PRN, TOW, alert_flag).
Proof.
  intros _ PRN TOW alert_flag header_of.
  split; [reflexivity |].
  destruct (decode_page_cases cat data_bits m) as [E | [E | [E | [E | E]]]];
    rewrite E; reflexivity.
Qed.

(** C4, as the code has it. For a page whose message type is none of 10,
    11, 30, 33, decode_page leaves the four freshness flags, the iono and
    UTC records and every member of the ephemeris record other than the
    common header (PRN, TOW, alert flag) as they were; of the decoder's
    other members only d_TOW is written. *)
Theorem decode_page_unknown_type_frame
    (cat : catalogue) (data_bits : bitset) (m : t) :
  is_page data_bits ->
  ~ In (page_type cat data_bits) [10; 11; 30; 33] ->
  let m' := decode_page cat data_bits m in
  b_flag_ephemeris_1 m' = b_flag_ephemeris_1 m
  /\ b_flag_ephemeris_2 m' = b_flag_ephemeris_2 m
  /\ b_flag_iono_valid m' = b_flag_iono_valid m
  /\ b_flag_utc_valid m' = b_flag_utc_valid m
  /\ iono_record m' = iono_record m
  /\ utc_model_record m' = utc_model_record m
  /\ Gps_CNAV_Ephemeris.forget_header (ephemeris_record m')
       = Gps_CNAV_Ephemeris.forget_header (ephemeris_record m)
  /\ set_d_TOW (d_TOW m) (set_ephemeris_record (ephemeris_record m) m') = m.
Proof.
  intros _ H m'. subst m'. rewrite decode_page_default by exact H.
  repeat split; try reflexivity.
  destruct m; reflexivity.
Qed.

(** C4, as stated, fails: a page of type 12 for satellite 1 changes the
    blank decoder (its ephemeris record now carries PRN 1). *)
Lemma decode_page_unknown_type_changes_state :
  is_page page_type_12
  /\ page_type layout page_type_12 = 12
  /\ decode_page layout page_type_12 blank <> blank.
Proof.
  split; [page_in_range |].
  split; [vm_compute; reflexivity |].
  intros E.
  apply (f_equal (fun x => Gps_CNAV_Ephemeris.i_satellite_PRN (ephemeris_record x))) in E.
  vm_compute in E. discriminate.
Qed.

(** C1. With both ephemeris halves decoded, have_new_ephemeris returns
    true exactly when Toe1 equals Toe2 and then clears both ephemeris
    flags, touching nothing else; when Toe1 differs from Toe2 it returns
    false and leaves the decoder as it was, so that a type-11 page whose
    Toe2 matches the stored Toe1 makes the next call return true; when
    either flag is clear it returns false. *)
Theorem have_new_ephemeris_contract (m : t) :
  let Toe1 := Gps_CNAV_Ephemeris.d_Toe1 (ephemeris_record m) in
  let Toe2 := Gps_CNAV_Ephemeris.d_Toe2 (ephemeris_record m) in
  let r := have_new_ephemeris m in
  (b_flag_ephemeris_1 m = true /\ b_flag_ephemeris_2 m = true ->
     (fst r = true <-> Toe1 = Toe2)
     /\ (Toe1 = Toe2 ->
           fst r = true
           /\ b_flag_ephemeris_1 (snd r) = false
           /\ b_flag_ephemeris_2 (snd r) = false
           /\ set_b_flag_ephemeris_1 true (set_b_flag_ephemeris_2 true (snd r)) = m)
     /\ (Toe1 <> Toe2 ->
           r = (false, m)
           /\ forall (cat : catalogue) (data_bits : bitset),
                page_type cat data_bits = 11 ->
                mul32 (int32_unsigned cat data_bits CNAV_TOE2) (int_LSB cat CNAV_TOE2)
                  = Toe1 ->
                fst (have_new_ephemeris (decode_page cat data_bits (snd r))) = true))
  /\ (b_flag_ephemeris_1 m = false \/ b_flag_ephemeris_2 m = false ->
        r = (false, m)).
Proof.
  intros Toe1 Toe2 r. subst r. unfold have_new_ephemeris.
  split.
  - intros [H1 H2]. rewrite H1, H2. cbn [andb].
    fold Toe1 Toe2. destruct (Z.eqb_spec Toe1 Toe2) as [E | N].
    + split; [cbn; tauto |]. split; [| tauto].
      intros _. cbn [fst snd]. repeat split.
      destruct m; cbn in *. now rewrite H1, H2.
    + split; [cbn; split; [discriminate | tauto] |].
      split; [tauto |]. intros _. split; [reflexivity |].
      intros cat data_bits Hty Htoe. cbn [snd].
      rewrite decode_page_11 by exact Hty.
      set (m' := decode_type_11 cat data_bits (decode_header cat data_bits m)).
      assert (F1 : b_flag_ephemeris_1 m' = b_flag_ephemeris_1 m) by reflexivity.
      assert (F2 : b_flag_ephemeris_2 m' = true) by reflexivity.
      assert (F3 : Gps_CNAV_Ephemeris.d_Toe1 (ephemeris_record m') = Toe1)
        by reflexivity.
      assert (F4 : Gps_CNAV_Ephemeris.d_Toe2 (ephemeris_record m')
                   = mul32 (int32_unsigned cat data_bits CNAV_TOE2)
                           (int_LSB cat CNAV_TOE2)) by reflexivity.
      rewrite F1, F2, F3, F4, H1, Htoe, Z.eqb_refl. reflexivity.
  - intros [H | H]; rewrite H; [| rewrite andb_false_r]; reflexivity.
Qed.

(** C9. have_new_iono and have_new_utc_model return true and clear only
    their own flag when it is set, and return false leaving the decoder
    unchanged when it is clear; after a decoded page of type 30 (type 33)
    two calls in a row return true, then false; get_utc_model returns
    the stored UTC record, every member as stored except valid, which is
    true; the stored record becomes the returned one and no other member
    of the decoder changes. *)
Theorem have_new_iono_utc_contract (m : t) :
  (b_flag_iono_valid m = true ->
     fst (have_new_iono m) = true
     /\ b_flag_iono_valid (snd (have_new_iono m)) = false
     /\ set_b_flag_iono_valid true (snd (have_new_iono m)) = m)
  /\ (b_flag_iono_valid m = false -> have_new_iono m = (false, m))
  /\ (b_flag_utc_valid m = true ->
        fst (have_new_utc_model m) = true
        /\ b_flag_utc_valid (snd (have_new_utc_model m)) = false
        /\ set_b_flag_utc_valid true (snd (have_new_utc_model m)) = m)
  /\ (b_flag_utc_valid m = false -> have_new_utc_model m = (false, m))
  /\ (forall (cat : catalogue) (data_bits : bitset),
        page_type cat data_bits = 30 ->
        let first_call := have_new_iono (decode_page cat data_bits m) in
        let second_call := have_new_iono (snd first_call) in
        fst first_call = true /\ fst second_call = false)
  /\ (forall (cat : catalogue) (data_bits : bitset),
        page_type cat data_bits = 33 ->
        let first_call := have_new_utc_model (decode_page cat data_bits m) in
        let second_call := have_new_utc_model (snd first_call) in
        fst first_call = true /\ fst second_call = false)
  /\ Gps_CNAV_Utc_Model.valid (fst (get_utc_model m)) = true
  /\ (let returned := fst (get_utc_model m) in
      let stored := utc_model_record m in
      (Gps_CNAV_Utc_Model.d_A0 returned, Gps_CNAV_Utc_Model.d_A1 returned,
       Gps_CNAV_Utc_Model.d_A2 returned,
       Gps_CNAV_Utc_Model.d_DeltaT_LS returned,
       Gps_CNAV_Utc_Model.d_t_OT returned, Gps_CNAV_Utc_Model.i_WN_T returned,
       Gps_CNAV_Utc_Model.i_WN_LSF returned, Gps_CNAV_Utc_Model.i_DN returned,
       Gps_CNAV_Utc_Model.d_DeltaT_LSF returned)
      = (Gps_CNAV_Utc_Model.d_A0 stored, Gps_CNAV_Utc_Model.d_A1 stored,
         Gps_CNAV_Utc_Model.d_A2 stored,
         Gps_CNAV_Utc_Model.d_DeltaT_LS stored,
         Gps_CNAV_Utc_Model.d_t_OT stored, Gps_CNAV_Utc_Model.i_WN_T stored,
         Gps_CNAV_Utc_Model.i_WN_LSF stored, Gps_CNAV_Utc_Model.i_DN stored,
         Gps_CNAV_Utc_Model.d_DeltaT_LSF stored))
  /\ utc_model_record (snd (get_utc_model m)) = fst (get_utc_model m)
  /\ set_utc_model_record (utc_model_record m) (snd (get_utc_model m)) = m.
Proof.
  unfold have_new_iono, have_new_utc_model.
  repeat apply conj.
  - intros H. rewrite H. cbn [fst snd]. repeat split.
    destruct m; cbn in *. now rewrite H.
  - intros H. now rewrite H.
  - intros H. rewrite H. cbn [fst snd]. repeat split.
    destruct m; cbn in *. now rewrite H.
  - intros H. now rewrite H.
  - intros cat data_bits Hty. rewrite decode_page_30 by exact Hty.
    split; reflexivity.
  - intros cat data_bits Hty. rewrite decode_page_33 by exact Hty.
    split; reflexivity.
  - reflexivity.
  - reflexivity.
  - reflexivity.
  - destruct m; reflexivity.
Qed.

(** ** The group-delay sentinel *)

(** The literal -4095.9 is the correctly rounded quotient -40959 / 10. *)
Example minus_4095_9_nearest :
  SFdiv Double.prec Double.emax (Double.of_int (-40959)) (Double.of_int 10)
    = Double.minus_4095_9.
Proof. vm_compute. reflexivity. Qed.

Lemma sentinel_below_threshold :
  Double.ltb (Double.of_int (-4096)) Double.minus_4095_9 = true.
Proof. vm_compute. reflexivity. Qed.

(** No other 13-bit value converts to a double below -4095.9: checked on
    each of the 8191 values. *)
Lemma others_not_below_threshold z :
  -4095 <= z <= 4095 ->
  Double.ltb (Double.of_int z) Double.minus_4095_9 = false.
Proof.
  intros Hz.
  assert (All : forallb
            (fun k => negb (Double.ltb (Double.of_int (Z.of_nat k - 4095))
                                       Double.minus_4095_9))
            (seq 0 (Z.to_nat 8191)) = true) by (vm_compute; reflexivity).
  rewrite forallb_forall in All.
  specialize (All (Z.to_nat (z + 4095))).
  rewrite Z2Nat.id in All by lia.
  replace (z + 4095 - 4095) with z in All by lia.
  apply negb_true_iff, All, in_seq. lia.
Qed.

Lemma mul_zero_finite_nonneg (lsb : Double.double) :
  Double.finite_nonneg lsb = true -> Double.mul Double.zero lsb = Double.zero.
Proof.
  destruct lsb as [[|] | [|] | | [|] ? ?]; intros H;
    try discriminate H; reflexivity.
Qed.

(** The member of a group-delay field after a type-30 page. *)
Lemma group_delay_member_type_30 cat data_bits m F :
  In F group_delay_fields ->
  Gps_CNAV_Ephemeris.group_delay_member F
    (ephemeris_record (decode_type_30 cat data_bits m))
  = group_delay (double_signed cat data_bits F) (double_LSB cat F).
Proof.
  unfold group_delay_fields. simpl.
  intros [<- | [<- | [<- | [<- | [<- | []]]]]]; reflexivity.
Qed.

(** C3. After decode_page of a type-30 page, for each of TGD, ISCL1,
    ISCL2, ISCL5I, ISCL5Q read from a 13-bit field: when the field holds
    1000000000000 the signed read is -4096, the value multiplied by the
    scale factor is the substituted 0.0, and the stored member is 0.0; for
    every other pattern the stored member is the signed read, converted to
    double, times the scale factor. *)
Theorem group_delay_sentinel
    (cat : catalogue) (data_bits : bitset) (m : t) (F : field) :
  is_page data_bits ->
  page_type cat data_bits = 30 ->
  In F group_delay_fields ->
  well_formed (slices cat F) ->
  field_width (slices cat F) = 13 ->
  Double.finite_nonneg (double_LSB cat F) = true ->
  let pattern := read_navigation_unsigned data_bits (slices cat F) in
  let raw := read_navigation_signed data_bits (slices cat F) in
  let stored :=
    Gps_CNAV_Ephemeris.group_delay_member F
      (ephemeris_record (decode_page cat data_bits m)) in
  (pattern = NOT_AVAILABLE ->
     raw = -4096
     /\ stored = Double.mul Double.zero (double_LSB cat F)
     /\ stored = Double.zero)
  /\ (pattern <> NOT_AVAILABLE ->
        stored = Double.mul (Double.of_int raw) (double_LSB cat F)).
Proof.
  intros _ Hty HF (_ & Hfirst & Hne) Hw Hlsb pattern raw stored.
  subst stored. rewrite decode_page_30 by exact Hty.
  rewrite group_delay_member_type_30 by exact HF.
  unfold double_signed. fold raw.
  destruct (slices cat F) as [|[first second] rest] eqn:EF; [congruence |].
  change (snd (front ((first, second) :: rest))) with second in Hfirst.
  destruct (signed_unsigned_split data_bits first second rest Hfirst)
    as (r & Hr & Eu & Es); [lia |].
  fold pattern in Eu. fold raw in Es.
  rewrite Hw in Hr, Eu, Es. change (2 ^ (13 - 1)) with 4096 in Hr, Eu, Es.
  assert (Hb : Z.b2z (bit data_bits (GPS_CNAV_DATA_PAGE_BITS - first)) = 0
               \/ Z.b2z (bit data_bits (GPS_CNAV_DATA_PAGE_BITS - first)) = 1)
    by (destruct (bit data_bits _); simpl; lia).
  unfold group_delay, NOT_AVAILABLE. cbv zeta.
  split.
  - intros Hp. assert (Eraw : raw = -4096) by lia.
    rewrite Eraw, sentinel_below_threshold.
    repeat split; try reflexivity.
    now apply mul_zero_finite_nonneg.
  - intros Hp. rewrite others_not_below_threshold by lia. reflexivity.
Qed.

(** ** The theorems at concrete pages *)

Lemma decode_page_common_header_witness :
  is_page page_type_12
  /\ (Gps_CNAV_Ephemeris.i_satellite_PRN
        (ephemeris_record (decode_page layout page_type_12 blank)),
      Gps_CNAV_Ephemeris.d_TOW
        (ephemeris_record (decode_page layout page_type_12 blank)),
      Gps_CNAV_Ephemeris.b_alert_flag
        (ephemeris_record (decode_page layout page_type_12 blank)))
     = (1, 600, false).
Proof.
  assert (Hp : is_page page_type_12)
    by page_in_range.
  split; [exact Hp |].
  exact (proj2 (decode_page_common_header layout page_type_12 blank Hp)).
Defined.

Lemma decode_page_unknown_type_frame_witness :
  is_page page_type_12
  /\ ~ In (page_type layout page_type_12) [10; 11; 30; 33]
  /\ b_flag_ephemeris_1 (decode_page layout page_type_12 blank) = false
  /\ iono_record (decode_page layout page_type_12 blank) = Gps_CNAV_Iono.zero
  /\ Gps_CNAV_Ephemeris.forget_header
       (ephemeris_record (decode_page layout page_type_12 blank))
     = Gps_CNAV_Ephemeris.zero.
Proof.
  assert (Hp : is_page page_type_12)
    by page_in_range.
  assert (Ht : ~ In (page_type layout page_type_12) [10; 11; 30; 33]).
  { vm_compute. intros [H | [H | [H | [H | []]]]]; discriminate H. }
  split; [exact Hp |]. split; [exact Ht |].
  destruct (decode_page_unknown_type_frame layout page_type_12 blank Hp Ht)
    as (H1 & _ & _ & _ & Hi & _ & He & _).
  split; [exact H1 |]. split; [exact Hi | exact He].
Defined.

Lemma group_delay_sentinel_witness :
  is_page page_type_30
  /\ page_type layout page_type_30 = 30
  /\ read_navigation_unsigned page_type_30 (slices layout CNAV_TGD)
     = NOT_AVAILABLE
  /\ Gps_CNAV_Ephemeris.d_TGD
       (ephemeris_record (decode_page layout page_type_30 blank))
     = Double.zero
  /\ read_navigation_unsigned page_type_30 (slices layout CNAV_ISCL5Q)
     <> NOT_AVAILABLE
  /\ Gps_CNAV_Ephemeris.d_ISCL5Q
       (ephemeris_record (decode_page layout page_type_30 blank))
     = Double.mul (Double.of_int (-4095)) (Double.pow2 (-35)).
Proof.
  assert (Hp : is_page page_type_30)
    by page_in_range.
  assert (Ht : page_type layout page_type_30 = 30) by (vm_compute; reflexivity).
  assert (Hwf : forall first, 1 <= first <= 288 -> well_formed [(first, 13)]).
  { intros first Hf. split; [| split; [simpl; lia | discriminate]].
    constructor;
      [unfold slice_in_page, GPS_CNAV_DATA_PAGE_BITS; simpl; lia | constructor]. }
  assert (Hw : forall first, field_width [(first, 13)] = 13)
    by (intros first; reflexivity).
  assert (E1 : read_navigation_unsigned page_type_30 (slices layout CNAV_TGD)
               = NOT_AVAILABLE) by (vm_compute; reflexivity).
  assert (E2 : read_navigation_unsigned page_type_30 (slices layout CNAV_ISCL5Q)
               <> NOT_AVAILABLE) by (vm_compute; discriminate).
  split; [exact Hp |]. split; [exact Ht |].
  split; [exact E1 |]. split; [| split; [exact E2 |]].
  - refine (proj2 (proj2 (proj1
      (group_delay_sentinel layout page_type_30 blank CNAV_TGD
         Hp Ht _ (Hwf 128 _) (Hw 128) eq_refl) E1))).
    + simpl; tauto.
    + lia.
  - refine (proj2
      (group_delay_sentinel layout page_type_30 blank CNAV_ISCL5Q
         Hp Ht _ (Hwf 180 _) (Hw 180) eq_refl) E2).
    + simpl; tauto.
    + lia.
Defined.

(** Scenarios 6, 7 and 9 of the specification, evaluated. *)
Example matching_pair_publishes_once :
  let m := decode_page layout (page_type_11 0x234)
             (decode_page layout (page_type_10 0x234) blank) in
  fst (have_new_ephemeris m) = true
  /\ fst (have_new_ephemeris (snd (have_new_ephemeris m))) = false.
Proof. vm_compute. split; reflexivity. Qed.

Example mismatched_pair_keeps_flags :
  let m := decode_page layout (page_type_11 0x235)
             (decode_page layout (page_type_10 0x234) blank) in
  fst (have_new_ephemeris m) = false
  /\ b_flag_ephemeris_1 (snd (have_new_ephemeris m)) = true
  /\ b_flag_ephemeris_2 (snd (have_new_ephemeris m)) = true.
Proof. vm_compute. repeat split; reflexivity. Qed.

Example utc_pages_publish_once :
  let m := decode_page layout page_type_33
             (decode_page layout page_type_33 blank) in
  fst (have_new_utc_model m) = true
  /\ fst (have_new_utc_model (snd (have_new_utc_model m))) = false
  /\ Gps_CNAV_Utc_Model.valid (fst (get_utc_model m)) = true
  /\ Gps_CNAV_Utc_Model.d_DeltaT_LS (fst (get_utc_model m)) = 18.
Proof. vm_compute. repeat split; reflexivity. Qed.

End DecoderFacts.

(* ===================================================================== *)
(** * Properties of the channel state machine *)
(* ===================================================================== *)

Module ChannelFsmFacts.
Import ChannelFsm.

(** The code's reactions are the rows of the specification's table. *)
Lemma reactions_transition_table s e : reactions s e = transition_table s e.
Proof. destruct s, e; reflexivity. Qed.

(** A queue pointer that is null or points to a live object differs from
    the pointer [gr::msg_queue::make()] returns: the guard of the three
    emitting actions always holds. *)
Lemma queue_guard_holds m :
  queue_valid m ->
  negb (sptr_eqb (queue_ m) (msg_queue_make (live m))) = true.
Proof.
  unfold queue_valid, sptr_eqb, msg_queue_make. intros Hq.
  apply negb_true_iff, bool_decide_eq_false.
  destruct (queue_ m) as [queue |]; [| discriminate].
  intros [= ->]. exact (is_fresh (live m) Hq).
Qed.

Lemma queue_valid_call e m : queue_valid m -> queue_valid (call e m).
Proof. exact (fun H => H). Qed.

Lemma bound_queue_valid m acq trk queue : bound m acq trk queue -> queue_valid m.
Proof. intros (_ & _ & Hq & Hl). unfold queue_valid. now rewrite Hq. Qed.

Section Bound.
Variable m : t.
Variables acq trk queue : addr.
Hypothesis Hb : bound m acq trk queue.

Lemma start_acquisition_bound :
  start_acquisition m = Returns (call (acquisition_reset acq) m).
Proof. destruct Hb as (Ha & _). unfold start_acquisition. now rewrite Ha. Qed.

Lemma handle_bound what :
  handle what m = Returns (call (queue_handle queue (channel_ m, what)) m).
Proof. destruct Hb as (_ & _ & Hq & _). unfold handle. now rewrite Hq. Qed.

Lemma start_tracking_bound :
  start_tracking m
    = Returns (call (queue_handle queue (channel_ m, 1))
                 (call (tracking_start_tracking trk) m)).
Proof.
  pose proof (bound_queue_valid _ _ _ _ Hb) as Hv.
  destruct Hb as (_ & Ht & Hq & _). unfold start_tracking. rewrite Ht.
  rewrite queue_guard_holds by (apply queue_valid_call, Hv).
  unfold handle. cbn [queue_ call channel_]. now rewrite Hq.
Qed.

Lemma request_satellite_bound :
  request_satellite m = Returns (call (queue_handle queue (channel_ m, 0)) m).
Proof.
  unfold request_satellite.
  rewrite queue_guard_holds by (eapply bound_queue_valid, Hb).
  apply handle_bound.
Qed.

Lemma notify_stop_tracking_bound :
  notify_stop_tracking m = Returns (call (queue_handle queue (channel_ m, 2)) m).
Proof.
  unfold notify_stop_tracking.
  rewrite queue_guard_holds by (eapply bound_queue_valid, Hb).
  apply handle_bound.
Qed.

End Bound.

Lemma bound_call e m acq trk queue :
  bound m acq trk queue -> bound (call e m) acq trk queue.
Proof. exact (fun H => H). Qed.

Lemma entry_action_bound m acq trk queue s :
  bound m acq trk queue ->
  entry_action s m
    = Returns (moved m (current m) (entry_effects acq trk queue (channel_ m) s)).
Proof.
  intros Hb. destruct s; cbn [entry_action entry_effects].
  - unfold moved. rewrite app_nil_r. now destruct m.
  - now rewrite (start_acquisition_bound m acq trk queue Hb).
  - rewrite (start_tracking_bound m acq trk queue Hb).
    unfold moved, call; cbn. now rewrite <- app_assoc.
  - now rewrite (request_satellite_bound m acq trk queue Hb).
Qed.

Lemma exit_action_bound m acq trk queue s :
  bound m acq trk queue ->
  exit_action s m
    = Returns (moved m (current m) (exit_effects queue (channel_ m) s)).
Proof.
  intros Hb.
  destruct s; cbn [exit_action exit_effects];
    try (unfold moved; rewrite app_nil_r; now destruct m).
  now rewrite (notify_stop_tracking_bound m acq trk queue Hb).
Qed.

Lemma bound_moved m acq trk queue s es :
  bound m acq trk queue -> bound (moved m s es) acq trk queue.
Proof. exact (fun H => H). Qed.

(** A transition of a machine whose providers and queue are bound: the
    exit effects of the source, then the entry effects of the destination,
    then the new state. *)
Lemma process_event_bound m acq trk queue e destination :
  bound m acq trk queue ->
  reactions (current m) e = Some destination ->
  process_event e m
    = Returns (moved m destination
                 (exit_effects queue (channel_ m) (current m)
                  ++ entry_effects acq trk queue (channel_ m) destination)).
Proof.
  intros Hb Hr. unfold process_event. rewrite Hr.
  rewrite (exit_action_bound m acq trk queue _ Hb). cbn [bind].
  unfold enter.
  rewrite (entry_action_bound _ acq trk queue destination
             (bound_moved m acq trk queue _ _ Hb)).
  cbn [bind]. unfold moved, set_current; cbn. now rewrite app_assoc.
Qed.

(** An action that returns has changed nothing but the record of calls. *)
Lemma handle_returns what m m' :
  handle what m = Returns m' -> exists es, m' = moved m (current m) es.
Proof.
  unfold handle. destruct (queue_ m); intros [= <-].
  eexists. reflexivity.
Qed.

Lemma guarded_handle_returns (guard : bool) what m m' :
  (if guard then handle what m else Returns m) = Returns m' ->
  exists es, m' = moved m (current m) es.
Proof.
  destruct guard.
  - apply handle_returns.
  - intros [= <-]. exists []. unfold moved. rewrite app_nil_r. now destruct m.
Qed.

Lemma exit_action_returns s m m' :
  exit_action s m = Returns m' -> exists es, m' = moved m (current m) es.
Proof.
  destruct s; cbn [exit_action];
    try (intros [= <-]; exists []; unfold moved; rewrite app_nil_r;
         now destruct m).
  apply guarded_handle_returns.
Qed.

Lemma entry_action_returns s m m' :
  entry_action s m = Returns m' -> exists es, m' = moved m (current m) es.
Proof.
  destruct s; cbn [entry_action].
  - intros [= <-]. exists []. unfold moved. rewrite app_nil_r. now destruct m.
  - unfold start_acquisition. destruct (acq_ m); intros [= <-].
    eexists. reflexivity.
  - unfold start_tracking. destruct (trk_ m) as [trk |]; [| discriminate].
    intros H. apply guarded_handle_returns in H. destruct H as [es ->].
    exists (tracking_start_tracking trk :: es).
    unfold moved, call; cbn. now rewrite <- app_assoc.
  - apply guarded_handle_returns.
Qed.

(** An event call that returns leaves the machine in the destination its
    reaction names. *)
Lemma process_event_returns m e destination m' :
  reactions (current m) e = Some destination ->
  process_event e m = Returns m' -> current m' = destination.
Proof.
  intros Hr. unfold process_event. rewrite Hr.
  destruct (exit_action (current m) m) as [m1 |] eqn:E1; [| discriminate].
  cbn [bind]. unfold enter.
  destruct (entry_action destination m1) as [m2 |] eqn:E2; [| discriminate].
  cbn [bind]. intros [= <-]. reflexivity.
Qed.

(** C2. A machine is constructed in IDLE.  For every row of the transition
    table an event call that returns ends in the row's destination, and it
    does return when the providers and the queue are bound; the
    self-transition of ACQUIRING on failed_acquisition_repeat runs the
    ACQUIRING entry action again; every pair of state and event outside
    the table returns the machine unchanged, nothing called. *)
Theorem transition_table_observed :
  (forall objects : gset addr,
     exists m0, ChannelFsm objects = Returns m0
                /\ current m0 = channel_idle_fsm_S0)
  /\ (forall (objects : gset addr) (acquisition : sptr),
        exists m0, ChannelFsm_acquisition objects acquisition = Returns m0
                   /\ current m0 = channel_idle_fsm_S0)
  /\ (forall m e destination,
        transition_table (current m) e = Some destination ->
        (forall m', process_event e m = Returns m' -> current m' = destination)
        /\ (forall acq trk queue,
              bound m acq trk queue ->
              exists m', process_event e m = Returns m'
                         /\ current m' = destination))
  /\ (forall m acq trk queue,
        bound m acq trk queue ->
        current m = channel_acquiring_fsm_S1 ->
        process_event Ev_channel_failed_acquisition_repeat m
          = Returns (moved m channel_acquiring_fsm_S1 [acquisition_reset acq]))
  /\ (forall m e,
        transition_table (current m) e = None -> process_event e m = Returns m).
Proof.
  repeat apply conj.
  - intros objects. eexists. split; reflexivity.
  - intros objects acquisition. eexists. split; reflexivity.
  - intros m e destination Ht. rewrite <- reactions_transition_table in Ht.
    split.
    + intros m'. now apply process_event_returns.
    + intros acq trk queue Hb.
      rewrite (process_event_bound m acq trk queue e destination Hb Ht).
      eexists. split; reflexivity.
  - intros m acq trk queue Hb Hc.
    rewrite (process_event_bound m acq trk queue _ channel_acquiring_fsm_S1 Hb)
      by now rewrite Hc.
    now rewrite Hc.
  - intros m e Ht. rewrite <- reactions_transition_table in Ht.
    unfold process_event. now rewrite Ht.
Qed.

(** C7. With the providers and the queue bound, the actions make exactly
    these calls, in this order, before the event call returns: ACQUIRING
    entry calls acquisition reset; TRACKING entry calls start_tracking and
    then hands (channel, 1) to the queue; TRACKING exit hands over
    (channel, 2); WAITING entry hands over (channel, 0); IDLE entry and
    exit call nothing; an event call runs the exit action of the source
    and then the entry action of the destination. *)
Theorem entry_exit_effects (m : t) (acq trk queue : addr) :
  bound m acq trk queue ->
  let channel := channel_ m in
  entry_action channel_acquiring_fsm_S1 m
    = Returns (call (acquisition_reset acq) m)
  /\ entry_action channel_tracking_fsm_S2 m
     = Returns (call (queue_handle queue (channel, 1))
                  (call (tracking_start_tracking trk) m))
  /\ exit_action channel_tracking_fsm_S2 m
     = Returns (call (queue_handle queue (channel, 2)) m)
  /\ entry_action channel_waiting_fsm_S3 m
     = Returns (call (queue_handle queue (channel, 0)) m)
  /\ entry_action channel_idle_fsm_S0 m = Returns m
  /\ exit_action channel_idle_fsm_S0 m = Returns m
  /\ (forall e destination,
        transition_table (current m) e = Some destination ->
        process_event e m
          = Returns (moved m destination
                       (exit_effects queue channel (current m)
                        ++ entry_effects acq trk queue channel destination))).
Proof.
  intros Hb channel. subst channel. repeat apply conj.
  - apply (start_acquisition_bound m acq trk queue Hb).
  - apply (start_tracking_bound m acq trk queue Hb).
  - apply (notify_stop_tracking_bound m acq trk queue Hb).
  - apply (request_satellite_bound m acq trk queue Hb).
  - reflexivity.
  - reflexivity.
  - intros e destination Ht. rewrite <- reactions_transition_table in Ht.
    now apply process_event_bound.
Qed.

(** An unbound queue passes the guard and is dereferenced. *)
Lemma unbound_queue_undefined m :
  queue_ m = None ->
  request_satellite m = Undefined null_queue_
  /\ notify_stop_tracking m = Undefined null_queue_
  /\ (forall trk, trk_ m = Some trk -> start_tracking m = Undefined null_queue_).
Proof.
  intros Hq.
  assert (Hv : queue_valid m) by (unfold queue_valid; now rewrite Hq).
  unfold request_satellite, notify_stop_tracking, start_tracking.
  rewrite (queue_guard_holds m Hv). unfold handle. rewrite Hq.
  repeat split. intros trk ->.
  rewrite (queue_guard_holds _ (queue_valid_call _ m Hv)).
  cbn [queue_ call]. now rewrite Hq.
Qed.

(** C5, at the failing input. A channel numbered 7 with acquisition and
    tracking providers bound and no queue ever set is driven into
    ACQUIRING; valid_acquisition (TRACKING entry) and
    failed_acquisition_no_repeat (WAITING entry) then dereference the null
    queue.  The same channel brought to TRACKING with a queue bound, and the
    queue then replaced by the null pointer, dereferences it on
    failed_tracking_standby (TRACKING exit).  No transition completes. *)
Theorem unbound_queue_dereferenced :
  let objects : gset addr := {[ 1%positive; 2%positive; 3%positive ]} in
  let configure (m : t) :=
    set_channel 7 (set_tracking (Some 2%positive)
                     (set_acquisition (Some 1%positive) m)) in
  let acquiring :=
    (m <- ChannelFsm objects ;; Event_start_acquisition (configure m)) in
  let tracking :=
    (m <- acquiring ;; Event_valid_acquisition (set_queue (Some 3%positive) m)) in
  acquiring
    = Returns {| acq_ := Some 1%positive; trk_ := Some 2%positive;
                 queue_ := None; channel_ := 7;
                 current := channel_acquiring_fsm_S1; live := objects;
                 calls := [acquisition_reset 1%positive] |}
  /\ (m <- acquiring ;; Event_valid_acquisition m) = Undefined null_queue_
  /\ (m <- acquiring ;; Event_failed_acquisition_no_repeat m)
     = Undefined null_queue_
  /\ tracking
     = Returns {| acq_ := Some 1%positive; trk_ := Some 2%positive;
                  queue_ := Some 3%positive; channel_ := 7;
                  current := channel_tracking_fsm_S2; live := objects;
                  calls := [acquisition_reset 1%positive;
                            tracking_start_tracking 2%positive;
                            queue_handle 3%positive (7, 1)] |}
  /\ (m <- tracking ;; Event_failed_tracking_standby (set_queue None m))
     = Undefined null_queue_.
Proof.
  intros objects configure acquiring tracking.
  assert (E : acquiring
              = Returns {| acq_ := Some 1%positive; trk_ := Some 2%positive;
                           queue_ := None; channel_ := 7;
                           current := channel_acquiring_fsm_S1;
                           live := objects;
                           calls := [acquisition_reset 1%positive] |})
    by reflexivity.
  assert (T : tracking
              = Returns {| acq_ := Some 1%positive; trk_ := Some 2%positive;
                           queue_ := Some 3%positive; channel_ := 7;
                           current := channel_tracking_fsm_S2;
                           live := objects;
                           calls := [acquisition_reset 1%positive;
                                     tracking_start_tracking 2%positive;
                                     queue_handle 3%positive (7, 1)] |}).
  { subst tracking. rewrite E. cbn [bind]. unfold Event_valid_acquisition.
    erewrite (process_event_bound _ 1%positive 2%positive 3%positive
                Ev_channel_valid_acquisition channel_tracking_fsm_S2);
      [reflexivity | | reflexivity].
    repeat split; set_solver. }
  rewrite T, E. cbn [bind].
  repeat split.
Qed.

(** An action that returns leaves the provider pointers as they were. *)
Lemma exit_action_returns_providers s m m' :
  exit_action s m = Returns m' -> acq_ m' = acq_ m /\ trk_ m' = trk_ m.
Proof.
  intros H. apply exit_action_returns in H. destruct H as [es ->].
  split; reflexivity.
Qed.

(** C8, as the code has it. An ACQUIRING entry with no acquisition
    provider, or a TRACKING entry with no tracking provider, dereferences
    the null provider; an event whose transition runs such an entry action
    does not return: no error is reported and no state is kept. *)
Theorem missing_provider_undefined (m : t) :
  (acq_ m = None ->
     entry_action channel_acquiring_fsm_S1 m = Undefined null_acq_)
  /\ (trk_ m = None ->
        entry_action channel_tracking_fsm_S2 m = Undefined null_trk_)
  /\ (forall e,
        reactions (current m) e = Some channel_acquiring_fsm_S1 ->
        acq_ m = None ->
        forall m', process_event e m <> Returns m')
  /\ (forall e,
        reactions (current m) e = Some channel_tracking_fsm_S2 ->
        trk_ m = None ->
        process_event e m = Undefined null_trk_).
Proof.
  repeat apply conj.
  - intros H. cbn. unfold start_acquisition. now rewrite H.
  - intros H. cbn. unfold start_tracking. now rewrite H.
  - intros e Hr Ha m'. unfold process_event. rewrite Hr.
    destruct (exit_action (current m) m) as [m1 | f] eqn:E1; [| discriminate].
    apply exit_action_returns_providers in E1. destruct E1 as [Ha1 _].
    cbn [bind]. unfold enter. cbn [entry_action]. unfold start_acquisition.
    rewrite Ha1, Ha. discriminate.
  - intros e Hr Ht. unfold process_event. rewrite Hr.
    destruct (current m), e; try discriminate Hr.
    cbn [exit_action bind]. unfold enter. cbn [entry_action].
    unfold start_tracking. now rewrite Ht.
Qed.

(** C8, as stated, fails: a machine constructed with no provider is in
    IDLE; start_acquisition on it dereferences the null acquisition
    pointer, and the call yields no machine at all, none in IDLE either. *)
Lemma missing_provider_no_revert :
  exists m0,
    ChannelFsm ∅ = Returns m0
    /\ current m0 = channel_idle_fsm_S0
    /\ acq_ m0 = None
    /\ Event_start_acquisition m0 = Undefined null_acq_
    /\ ~ (exists m', Event_start_acquisition m0 = Returns m'
                     /\ current m' = current m0).
Proof.
  eexists. split; [reflexivity |].
  split; [reflexivity |]. split; [reflexivity |].
  split; [reflexivity |].
  intros (m' & H & _). discriminate H.
Qed.

(** The theorem on channel 7 in IDLE with providers 1 and 2 and queue 3
    bound: start_acquisition moves it to ACQUIRING after one call of
    acquisition reset. *)
Lemma entry_exit_effects_witness :
  let m := {| acq_ := Some 1%positive; trk_ := Some 2%positive;
              queue_ := Some 3%positive; channel_ := 7;
              current := channel_idle_fsm_S0;
              live := {[ 1%positive; 2%positive; 3%positive ]};
              calls := [] |} in
  bound m 1%positive 2%positive 3%positive
  /\ entry_action channel_tracking_fsm_S2 m
     = Returns (call (queue_handle 3%positive (7, 1))
                  (call (tracking_start_tracking 2%positive) m))
  /\ process_event Ev_channel_start_acquisition m
     = Returns (moved m channel_acquiring_fsm_S1 [acquisition_reset 1%positive]).
Proof.
  intros m.
  assert (Hb : bound m 1%positive 2%positive 3%positive).
  { repeat split; set_solver. }
  split; [exact Hb |].
  destruct (entry_exit_effects m 1%positive 2%positive 3%positive Hb)
    as (_ & Ht & _ & _ & _ & _ & He).
  split; [exact Ht |].
  exact (He Ev_channel_start_acquisition channel_acquiring_fsm_S1 eq_refl).
Defined.

(** Scenarios 2 and 3 of the specification, evaluated: with queue 3 bound,
    channel 7 reaches TRACKING after (7, 1) was handed to the queue, and
    IDLE after (7, 2). *)
Example tracking_scenario :
  let m := {| acq_ := Some 1%positive; trk_ := Some 2%positive;
              queue_ := Some 3%positive; channel_ := 7;
              current := channel_idle_fsm_S0;
              live := {[ 1%positive; 2%positive; 3%positive ]};
              calls := [] |} in
  (m <- Event_start_acquisition m ;;
   m <- Event_valid_acquisition m ;;
   Event_failed_tracking_standby m)
  = Returns (moved m channel_idle_fsm_S0
               [acquisition_reset 1%positive;
                tracking_start_tracking 2%positive;
                queue_handle 3%positive (7, 1);
                queue_handle 3%positive (7, 2)]).
Proof.
  intros m.
  assert (Hb : bound m 1%positive 2%positive 3%positive).
  { repeat split; set_solver. }
  unfold Event_start_acquisition, Event_valid_acquisition,
    Event_failed_tracking_standby.
  rewrite (process_event_bound m _ _ _ Ev_channel_start_acquisition
             channel_acquiring_fsm_S1 Hb eq_refl).
  cbn [bind].
  rewrite (process_event_bound _ _ _ _ Ev_channel_valid_acquisition
             channel_tracking_fsm_S2
             (bound_moved m _ _ _ channel_acquiring_fsm_S1 _ Hb) eq_refl).
  cbn [bind].
  rewrite (process_event_bound _ _ _ _ Ev_channel_failed_tracking_standby
             channel_idle_fsm_S0
             (bound_moved _ _ _ _ channel_tracking_fsm_S2 _
                (bound_moved m _ _ _ channel_acquiring_fsm_S1 _ Hb)) eq_refl).
  reflexivity.
Qed.

End ChannelFsmFacts.

(* ===================================================================== *)
(** * Further properties of the bit-field reader *)
(* ===================================================================== *)

Module BitReaderMore.
Import Int BitReader BitReaderFacts.


Lemma concat_slices_app bits F1 : forall F2 v,
  concat_slices bits (F1 ++ F2) v
    = concat_slices bits F2 (concat_slices bits F1 v).
Proof.
  induction F1 as [|[first second] rest IH]; intros F2 v; simpl;
    [reflexivity | apply IH].
Qed.

Lemma field_width_app F1 F2 :
  field_width (F1 ++ F2) = field_width F1 + field_width F2.
Proof.
  induction F1 as [|[first second] rest IH]; [reflexivity |].
  simpl app. rewrite !field_width_cons, IH. lia.
Qed.

(** X1. For a page and a descriptor whose slices lie within the page and
    extract n <= 64 bits, the unsigned read is a number in [0, 2^n). *)
Theorem read_navigation_unsigned_range (bits : bitset) (parameter : descriptor) :
  is_page bits ->
  Forall slice_in_page parameter ->
  field_width parameter <= 64 ->
  0 <= read_navigation_unsigned bits parameter < 2 ^ field_width parameter.
Proof.
  intros _ _ Hn. rewrite read_navigation_unsigned_concat by exact Hn.
  apply (concat_slices_shift bits parameter 0).
Qed.

Lemma read_navigation_unsigned_range_witness :
  let bits := Z.shiftl 0x1234 160 in
  is_page bits
  /\ Forall slice_in_page [(128, 5); (133, 8)]
  /\ field_width [(128, 5); (133, 8)] <= 64
  /\ 0 <= read_navigation_unsigned bits [(128, 5); (133, 8)] < 2 ^ 13.
Proof.
  intros bits.
  assert (Hp : is_page bits) by page_in_range.
  assert (Hs : Forall slice_in_page [(128, 5); (133, 8)]).
  { repeat (constructor;
            [unfold slice_in_page, GPS_CNAV_DATA_PAGE_BITS; simpl; lia |]).
    constructor. }
  assert (Hn : field_width [(128, 5); (133, 8)] <= 64)
    by (vm_compute; discriminate).
  split; [exact Hp |]. split; [exact Hs |]. split; [exact Hn |].
  exact (read_navigation_unsigned_range bits [(128, 5); (133, 8)] Hp Hs Hn).
Defined.

(** Bits of the number a single slice accumulates from zero. *)
Lemma concat_slice_testbit bits first n : forall j i,
  0 <= i < Z.of_nat n ->
  Z.testbit (concat_slice bits first j n 0) i
    = bit bits (GPS_CNAV_DATA_PAGE_BITS - first - (j + (Z.of_nat n - 1 - i))).
Proof.
  induction n as [|n IH]; intros j i Hi; [lia |].
  cbn [concat_slice]. rewrite Z.mul_0_r, Z.add_0_l.
  set (b := bit bits (GPS_CNAV_DATA_PAGE_BITS - first - j)).
  destruct (concat_slice_shift bits first n (j + 1) (Z.b2z b)) as [E _].
  destruct (concat_slice_shift bits first n (j + 1) 0) as [_ R].
  rewrite E. set (r := concat_slice bits first (j + 1) n 0) in *.
  pose proof (Z.pow_pos_nonneg 2 (Z.of_nat n) ltac:(lia) ltac:(lia)) as Hp.
  destruct (Z.eq_dec i (Z.of_nat n)) as [-> | Hne].
  - replace (j + (Z.of_nat (S n) - 1 - Z.of_nat n)) with j by lia.
    replace (Z.of_nat n) with (0 + Z.of_nat n) at 2 by lia.
    rewrite <- Z.div_pow2_bits by lia.
    rewrite Z.div_add_l by lia. rewrite Z.div_small by lia.
    rewrite Z.add_0_r. apply Z.b2z_bit0.
  - rewrite <- (Z.mod_pow2_bits_low _ (Z.of_nat n)) by lia.
    rewrite Z.add_comm, Z.mod_add by lia. rewrite Z.mod_small by lia.
    subst r. rewrite IH by lia. f_equal. lia.
Qed.

(** X2. Bit numbering. For a page and a single slice (first, second)
    within the page, of at most 64 bits, bit i of the unsigned read
    (counted from the least significant) is the page bit of 1-based
    position first + second - 1 - i, that is
    bits[300 - first - (second - 1 - i)]: the slice is read most
    significant bit first. *)
Theorem read_navigation_unsigned_bits
    (bits : bitset) (first second i : Z) :
  is_page bits ->
  slice_in_page (first, second) ->
  second <= 64 ->
  0 <= i < second ->
  Z.testbit (read_navigation_unsigned bits [(first, second)]) i
    = bit bits (GPS_CNAV_DATA_PAGE_BITS - first - (second - 1 - i)).
Proof.
  intros _ _ Hs Hi.
  assert (Hw : field_width [(first, second)] = second).
  { unfold field_width. simpl. lia. }
  rewrite read_navigation_unsigned_concat by lia.
  cbn [concat_slices].
  rewrite concat_slice_testbit by lia.
  f_equal. lia.
Qed.

Lemma read_navigation_unsigned_bits_witness :
  let bits := Z.shiftl 0x1000 160 in
  is_page bits
  /\ slice_in_page (128, 13)
  /\ Z.testbit (read_navigation_unsigned bits [(128, 13)]) 12
     = bit bits (GPS_CNAV_DATA_PAGE_BITS - 128)
  /\ bit bits (GPS_CNAV_DATA_PAGE_BITS - 128) = true.
Proof.
  intros bits.
  assert (Hp : is_page bits) by page_in_range.
  assert (Hs : slice_in_page (128, 13))
    by (unfold slice_in_page, GPS_CNAV_DATA_PAGE_BITS; simpl; lia).
  split; [exact Hp |]. split; [exact Hs |]. split; [| reflexivity].
  exact (read_navigation_unsigned_bits bits 128 13 12 Hp Hs
           ltac:(lia) ltac:(lia)).
Defined.

(** X3. Concatenation. For a page and slices within the page, reading
    the slices of [F1] followed by those of [F2], at most 64 bits in all,
    gives the read of [F1] shifted left by the width of [F2] plus the read
    of [F2]. *)
Theorem read_navigation_unsigned_app (bits : bitset) (F1 F2 : descriptor) :
  is_page bits ->
  Forall slice_in_page F1 ->
  Forall slice_in_page F2 ->
  field_width F1 + field_width F2 <= 64 ->
  read_navigation_unsigned bits (F1 ++ F2)
    = read_navigation_unsigned bits F1 * 2 ^ field_width F2
      + read_navigation_unsigned bits F2.
Proof.
  intros _ _ _ Hn.
  pose proof (field_width_nonneg F1). pose proof (field_width_nonneg F2).
  rewrite !read_navigation_unsigned_concat
    by (rewrite ?field_width_app; lia).
  rewrite concat_slices_app.
  apply (concat_slices_shift bits F2).
Qed.

Lemma read_navigation_unsigned_app_witness :
  let bits := Z.shiftl 0x1234 160 in
  is_page bits
  /\ Forall slice_in_page [(128, 5)]
  /\ Forall slice_in_page [(133, 8)]
  /\ field_width [(128, 5)] + field_width [(133, 8)] <= 64
  /\ read_navigation_unsigned bits ([(128, 5)] ++ [(133, 8)])
     = read_navigation_unsigned bits [(128, 5)] * 2 ^ 8
       + read_navigation_unsigned bits [(133, 8)]
  /\ read_navigation_unsigned bits [(128, 13)] = 0x1234 mod 2 ^ 13.
Proof.
  intros bits.
  assert (Hp : is_page bits) by page_in_range.
  assert (H1 : Forall slice_in_page [(128, 5)]).
  { constructor;
      [unfold slice_in_page, GPS_CNAV_DATA_PAGE_BITS; simpl; lia | constructor]. }
  assert (H2 : Forall slice_in_page [(133, 8)]).
  { constructor;
      [unfold slice_in_page, GPS_CNAV_DATA_PAGE_BITS; simpl; lia | constructor]. }
  assert (H : field_width [(128, 5)] + field_width [(133, 8)] <= 64)
    by (vm_compute; discriminate).
  split; [exact Hp |]. split; [exact H1 |]. split; [exact H2 |].
  split; [exact H |]. split; [| vm_compute; reflexivity].
  exact (read_navigation_unsigned_app bits [(128, 5)] [(133, 8)] Hp H1 H2 H).
Defined.



(** X5. For a well-formed descriptor of n <= 64 bits the signed read lies
    in [-2^(n-1), 2^(n-1)) and carries the same n bits as the unsigned
    read: reduced modulo 2^n it is the unsigned read. *)
Theorem read_navigation_signed_range (bits : bitset) (parameter : descriptor) :
  well_formed parameter ->
  field_width parameter <= 64 ->
  let n := field_width parameter in
  - 2 ^ (n - 1) <= read_navigation_signed bits parameter < 2 ^ (n - 1)
  /\ read_navigation_signed bits parameter mod 2 ^ n
     = read_navigation_unsigned bits parameter.
Proof.
  intros (_ & Hfirst & Hne) Hn n.
  destruct parameter as [|[first second] rest]; [congruence |].
  change (snd (front ((first, second) :: rest))) with second in Hfirst.
  destruct (signed_unsigned_split bits first second rest Hfirst Hn)
    as (r & Hr & Eu & Es).
  fold n in Hr, Eu, Es.
  assert (Hn1 : 1 <= n).
  { subst n. rewrite field_width_cons.
    pose proof (field_width_nonneg rest). lia. }
  assert (E2 : 2 ^ n = 2 * 2 ^ (n - 1)).
  { rewrite <- Z.pow_succ_r by lia. f_equal. lia. }
  assert (Hp : 0 < 2 ^ (n - 1)) by (apply Z.pow_pos_nonneg; lia).
  rewrite Es, Eu.
  destruct (bit bits (GPS_CNAV_DATA_PAGE_BITS - first)); simpl Z.b2z;
    rewrite ?Z.mul_0_l, ?Z.mul_1_l, ?Z.sub_0_r, ?Z.add_0_l.
  - split; [lia |].
    replace (r - 2 ^ (n - 1)) with (2 ^ (n - 1) + r + (-1) * 2 ^ n) by lia.
    rewrite Z.mod_add by lia. apply Z.mod_small. lia.
  - split; [lia |]. apply Z.mod_small. lia.
Qed.

Lemma read_navigation_signed_range_witness :
  let bits := Z.shiftl 0x1000 160 in
  well_formed [(128, 13)]
  /\ field_width [(128, 13)] <= 64
  /\ - 2 ^ 12 <= read_navigation_signed bits [(128, 13)] < 2 ^ 12
  /\ read_navigation_signed bits [(128, 13)] mod 2 ^ 13 = 0x1000.
Proof.
  intros bits.
  assert (Hw : well_formed [(128, 13)]).
  { split; [| split; [simpl; lia | discriminate]].
    constructor;
      [unfold slice_in_page, GPS_CNAV_DATA_PAGE_BITS; simpl; lia | constructor]. }
  assert (Hn : field_width [(128, 13)] <= 64) by (vm_compute; discriminate).
  split; [exact Hw |]. split; [exact Hn |].
  destruct (read_navigation_signed_range bits [(128, 13)] Hw Hn) as [Hr Hm].
  split; [exact Hr | exact Hm].
Defined.

(** X6. For a page and a well-formed descriptor within the page, of at
    most 64 bits, read_navigation_bool looks at the first bit of the first
    slice only: it is the sign of the signed read of the same descriptor
    and the 1-bit unsigned read at the same start, and it is unchanged
    when the length of the first slice or the later slices change within
    the page. *)
Theorem read_navigation_bool_sign
    (bits : bitset) (first second : Z) (rest : descriptor) :
  is_page bits ->
  well_formed ((first, second) :: rest) ->
  field_width ((first, second) :: rest) <= 64 ->
  read_navigation_bool bits ((first, second) :: rest)
    = (read_navigation_signed bits ((first, second) :: rest) <? 0)
  /\ (forall second' rest',
        Forall slice_in_page ((first, second') :: rest') ->
        read_navigation_bool bits ((first, second') :: rest')
          = read_navigation_bool bits ((first, second) :: rest))
  /\ slice_in_page (first, 1)
  /\ read_navigation_bool bits ((first, second) :: rest)
     = (read_navigation_unsigned bits [(first, 1)] =? 1).
Proof.
  intros _ (Hin & Hs & _) Hn.
  change (snd (front ((first, second) :: rest))) with second in Hs.
  destruct (signed_unsigned_split bits first second rest Hs Hn)
    as (r & Hr & _ & Es).
  assert (Hn1 : 1 <= field_width ((first, second) :: rest)).
  { rewrite field_width_cons. pose proof (field_width_nonneg rest). lia. }
  assert (Hp : 0 < 2 ^ (field_width ((first, second) :: rest) - 1))
    by (apply Z.pow_pos_nonneg; lia).
  unfold read_navigation_bool. cbn [front nth fst].
  split; [| split; [intros; reflexivity | split]].
  - rewrite Es.
    destruct (bit bits (GPS_CNAV_DATA_PAGE_BITS - first)); simpl Z.b2z;
      symmetry; [apply Z.ltb_lt | apply Z.ltb_ge]; lia.
  - inversion Hin as [| ? ? Hfirst _]; subst.
    unfold slice_in_page in *. cbn [fst snd] in *. lia.
  - unfold read_navigation_unsigned. cbn [unsigned_slices].
    change (Z.to_nat 1) with 1%nat. cbn [unsigned_slice].
    replace (GPS_CNAV_DATA_PAGE_BITS - first - 0)
      with (GPS_CNAV_DATA_PAGE_BITS - first) by lia.
    destruct (bit bits (GPS_CNAV_DATA_PAGE_BITS - first)); reflexivity.
Qed.

Lemma read_navigation_bool_sign_witness :
  let bits := Z.shiftl 0x1000 160 in
  is_page bits
  /\ well_formed [(128, 13)]
  /\ field_width [(128, 13)] <= 64
  /\ read_navigation_bool bits [(128, 13)] = true
  /\ read_navigation_signed bits [(128, 13)] = -4096.
Proof.
  intros bits.
  assert (Hp : is_page bits) by page_in_range.
  assert (Hw : well_formed [(128, 13)]).
  { split; [| split; [simpl; lia | discriminate]].
    constructor;
      [unfold slice_in_page, GPS_CNAV_DATA_PAGE_BITS; simpl; lia | constructor]. }
  assert (Hn : field_width [(128, 13)] <= 64) by (vm_compute; discriminate).
  split; [exact Hp |]. split; [exact Hw |]. split; [exact Hn |].
  destruct (read_navigation_bool_sign bits 128 13 [] Hp Hw Hn)
    as (Hb & _ & _ & _).
  split; [| vm_compute; reflexivity].
  rewrite Hb. vm_compute. reflexivity.
Defined.

End BitReaderMore.

(* ===================================================================== *)
(** * Further properties of the CNAV decoder *)
(* ===================================================================== *)

Module DecoderMore.
Import Int BitReader Catalogue Pages Layout.
Import Gps_CNAV_Navigation_Message Construction.
Import DecoderFacts.

(** Splits a goal about decode_page into the five branches of its switch,
    the message type replaced by its value in the four cases. *)
Ltac switch_cases cat data_bits :=
  unfold decode_page; cbv zeta;
  generalize (page_type cat data_bits);
  let ty := fresh "ty" in
  intros ty;
  destruct (Z.eqb_spec ty 10) as [-> | ?];
  [| destruct (Z.eqb_spec ty 11) as [-> | ?];
     [| destruct (Z.eqb_spec ty 30) as [-> | ?];
        [| destruct (Z.eqb_spec ty 33) as [-> | ?]]]].

(** The effect of each step of decode_page as one assignment. *)
Lemma decode_header_assign cat data_bits m :
  decode_header cat data_bits m
  = assign m (b_flag_ephemeris_1 m) (b_flag_ephemeris_2 m)
      (b_flag_iono_valid m) (b_flag_utc_valid m)
      (ephemeris_header (int32_unsigned cat data_bits CNAV_PRN)
         (mul32 (int32_unsigned cat data_bits CNAV_TOW) (int_LSB cat CNAV_TOW))
         (read_navigation_bool data_bits (slices cat CNAV_ALERT_FLAG))
         (ephemeris_record m))
      (iono_record m) (utc_model_record m)
      (mul32 (int32_unsigned cat data_bits CNAV_TOW) (int_LSB cat CNAV_TOW)).
Proof. destruct m. reflexivity. Qed.

Lemma decode_type_10_assign cat data_bits m :
  decode_type_10 cat data_bits m
  = assign m true (b_flag_ephemeris_2 m) (b_flag_iono_valid m)
      (b_flag_utc_valid m)
      (ephemeris_type_10 cat data_bits (ephemeris_record m))
      (iono_record m) (utc_model_record m) (d_TOW m).
Proof. reflexivity. Qed.

Lemma decode_type_11_assign cat data_bits m :
  decode_type_11 cat data_bits m
  = assign m (b_flag_ephemeris_1 m) true (b_flag_iono_valid m)
      (b_flag_utc_valid m)
      (ephemeris_type_11 cat data_bits (ephemeris_record m))
      (iono_record m) (utc_model_record m) (d_TOW m).
Proof. reflexivity. Qed.

Lemma decode_type_30_assign cat data_bits m :
  decode_type_30 cat data_bits m
  = assign m (b_flag_ephemeris_1 m) (b_flag_ephemeris_2 m) true
      (b_flag_utc_valid m)
      (ephemeris_type_30 cat data_bits (ephemeris_record m))
      (iono_type_30 cat data_bits (iono_record m)) (utc_model_record m)
      (d_TOW m).
Proof. reflexivity. Qed.

Lemma decode_type_33_assign cat data_bits m :
  decode_type_33 cat data_bits m
  = assign m (b_flag_ephemeris_1 m) (b_flag_ephemeris_2 m)
      (b_flag_iono_valid m) true
      (ephemeris_type_33 cat data_bits (ephemeris_record m))
      (iono_record m)
      (utc_type_33 cat data_bits (utc_model_record m)) (d_TOW m).
Proof. reflexivity. Qed.

(** Brings the branch of decode_page at hand to a single assignment. *)
Ltac as_assignment :=
  rewrite ?decode_type_10_assign, ?decode_type_11_assign,
    ?decode_type_30_assign, ?decode_type_33_assign, ?decode_header_assign;
  cbn [assign b_flag_ephemeris_1 b_flag_ephemeris_2 b_flag_iono_valid
       b_flag_utc_valid ephemeris_record iono_record utc_model_record
       satelliteBlock d_satpos_X d_satpos_Y d_satpos_Z i_channel_ID
       i_satellite_PRN d_satvel_X d_satvel_Y d_satvel_Z d_TOW].

Lemma flags_after_page (cat : catalogue) (data_bits : bitset) (m : t) :
  b_flag_ephemeris_1 (decode_page cat data_bits m)
    = b_flag_ephemeris_1 m || (page_type cat data_bits =? 10)
  /\ b_flag_ephemeris_2 (decode_page cat data_bits m)
     = b_flag_ephemeris_2 m || (page_type cat data_bits =? 11)
  /\ b_flag_iono_valid (decode_page cat data_bits m)
     = b_flag_iono_valid m || (page_type cat data_bits =? 30)
  /\ b_flag_utc_valid (decode_page cat data_bits m)
     = b_flag_utc_valid m || (page_type cat data_bits =? 33).
Proof.
  switch_cases cat data_bits;
    repeat match goal with
           | |- context [?a =? ?b] =>
               destruct (Z.eqb_spec a b); [congruence |]
           end;
    change (10 =? 10) with true; change (11 =? 11) with true;
    change (30 =? 30) with true; change (33 =? 33) with true;
    change (10 =? 11) with false; change (10 =? 30) with false;
    change (10 =? 33) with false; change (11 =? 10) with false;
    change (11 =? 30) with false; change (11 =? 33) with false;
    change (30 =? 10) with false; change (30 =? 11) with false;
    change (30 =? 33) with false; change (33 =? 10) with false;
    change (33 =? 11) with false; change (33 =? 30) with false;
    rewrite ?orb_false_r, ?orb_true_r; repeat split.
Qed.

Lemma toe_after_page (cat : catalogue) (data_bits : bitset) (m : t) :
  (page_type cat data_bits <> 10 ->
     Gps_CNAV_Ephemeris.d_Toe1 (ephemeris_record (decode_page cat data_bits m))
       = Gps_CNAV_Ephemeris.d_Toe1 (ephemeris_record m))
  /\ (page_type cat data_bits <> 11 ->
        Gps_CNAV_Ephemeris.d_Toe2 (ephemeris_record (decode_page cat data_bits m))
          = Gps_CNAV_Ephemeris.d_Toe2 (ephemeris_record m))
  /\ (page_type cat data_bits = 10 ->
        Gps_CNAV_Ephemeris.d_Toe1 (ephemeris_record (decode_page cat data_bits m))
          = mul32 (int32_unsigned cat data_bits CNAV_TOE1) (int_LSB cat CNAV_TOE1))
  /\ (page_type cat data_bits = 11 ->
        Gps_CNAV_Ephemeris.d_Toe2 (ephemeris_record (decode_page cat data_bits m))
          = mul32 (int32_unsigned cat data_bits CNAV_TOE2) (int_LSB cat CNAV_TOE2)).
Proof.
  switch_cases cat data_bits;
    repeat apply conj; try reflexivity; intros; congruence.
Qed.

(** X7. decode_page never clears a freshness flag: each flag afterwards is
    the flag before, or-ed with "the page is of the flag's type" (10 for
    ephemeris 1, 11 for ephemeris 2, 30 for iono, 33 for UTC). *)
Theorem decode_page_flags (cat : catalogue) (data_bits : bitset) (m : t) :
  let m' := decode_page cat data_bits m in
  let ty := page_type cat data_bits in
  b_flag_ephemeris_1 m' = b_flag_ephemeris_1 m || (ty =? 10)
  /\ b_flag_ephemeris_2 m' = b_flag_ephemeris_2 m || (ty =? 11)
  /\ b_flag_iono_valid m' = b_flag_iono_valid m || (ty =? 30)
  /\ b_flag_utc_valid m' = b_flag_utc_valid m || (ty =? 33).
Proof. exact (flags_after_page cat data_bits m). Qed.

(** X8. What decode_page leaves alone: the iono record unless the page is
    of type 30, the UTC record unless it is of type 33, Toe1 unless it is
    of type 10, Toe2 unless it is of type 11, and always the satellite
    block table, the channel number, the decoder's own PRN member and the
    satellite position and velocity. *)
Theorem decode_page_writers (cat : catalogue) (data_bits : bitset) (m : t) :
  let m' := decode_page cat data_bits m in
  let ty := page_type cat data_bits in
  (ty <> 30 -> iono_record m' = iono_record m)
  /\ (ty <> 33 -> utc_model_record m' = utc_model_record m)
  /\ (ty <> 10 ->
        Gps_CNAV_Ephemeris.d_Toe1 (ephemeris_record m')
          = Gps_CNAV_Ephemeris.d_Toe1 (ephemeris_record m))
  /\ (ty <> 11 ->
        Gps_CNAV_Ephemeris.d_Toe2 (ephemeris_record m')
          = Gps_CNAV_Ephemeris.d_Toe2 (ephemeris_record m))
  /\ satelliteBlock m' = satelliteBlock m
  /\ i_channel_ID m' = i_channel_ID m
  /\ i_satellite_PRN m' = i_satellite_PRN m
  /\ (d_satpos_X m', d_satpos_Y m', d_satpos_Z m')
     = (d_satpos_X m, d_satpos_Y m, d_satpos_Z m)
  /\ (d_satvel_X m', d_satvel_Y m', d_satvel_Z m')
     = (d_satvel_X m, d_satvel_Y m, d_satvel_Z m).
Proof.
  cbv zeta. switch_cases cat data_bits;
    repeat apply conj; try reflexivity; intros; congruence.
Qed.

(** X9. Decoding the same page twice in a row gives the state the first
    decoding gave, and after any page the decoder's d_TOW is the TOW of
    its ephemeris record. *)
Theorem decode_page_idempotent (cat : catalogue) (data_bits : bitset) (m : t) :
  decode_page cat data_bits (decode_page cat data_bits m)
    = decode_page cat data_bits m
  /\ d_TOW (decode_page cat data_bits m)
     = Gps_CNAV_Ephemeris.d_TOW (ephemeris_record (decode_page cat data_bits m)).
Proof.
  switch_cases cat data_bits; as_assignment; split; reflexivity.
Qed.

Lemma decode_pages_cons cat data_bits pages m :
  decode_pages cat (data_bits :: pages) m
    = decode_pages cat pages (decode_page cat data_bits m).
Proof. reflexivity. Qed.

(** Pages that are not of type 10 keep a decoded first half. *)
Lemma decode_pages_keep_half_1 cat pages : forall m,
  Forall (fun data_bits => page_type cat data_bits <> 10) pages ->
  b_flag_ephemeris_1 m = true ->
  b_flag_ephemeris_1 (decode_pages cat pages m) = true
  /\ Gps_CNAV_Ephemeris.d_Toe1 (ephemeris_record (decode_pages cat pages m))
     = Gps_CNAV_Ephemeris.d_Toe1 (ephemeris_record m).
Proof.
  induction pages as [| data_bits pages IH]; intros m Hall Hf;
    [split; [exact Hf | reflexivity] |].
  inversion Hall as [| ? ? Hty Hrest]; subst.
  rewrite decode_pages_cons.
  destruct (IH (decode_page cat data_bits m) Hrest) as [H1 H2].
  - rewrite (proj1 (flags_after_page cat data_bits m)), Hf. reflexivity.
  - split; [exact H1 |].
    rewrite H2. exact (proj1 (toe_after_page cat data_bits m) Hty).
Qed.

(** Pages that are not of type 11 keep a decoded second half. *)
Lemma decode_pages_keep_half_2 cat pages : forall m,
  Forall (fun data_bits => page_type cat data_bits <> 11) pages ->
  b_flag_ephemeris_2 m = true ->
  b_flag_ephemeris_2 (decode_pages cat pages m) = true
  /\ Gps_CNAV_Ephemeris.d_Toe2 (ephemeris_record (decode_pages cat pages m))
     = Gps_CNAV_Ephemeris.d_Toe2 (ephemeris_record m).
Proof.
  induction pages as [| data_bits pages IH]; intros m Hall Hf;
    [split; [exact Hf | reflexivity] |].
  inversion Hall as [| ? ? Hty Hrest]; subst.
  rewrite decode_pages_cons.
  destruct (IH (decode_page cat data_bits m) Hrest) as [H1 H2].
  - rewrite (proj1 (proj2 (flags_after_page cat data_bits m))), Hf.
    reflexivity.
  - split; [exact H1 |].
    rewrite H2. exact (proj1 (proj2 (toe_after_page cat data_bits m)) Hty).
Qed.

(** The second of two calls of have_new_ephemeris in a row returns false. *)
Lemma have_new_ephemeris_twice m :
  fst (have_new_ephemeris (snd (have_new_ephemeris m))) = false.
Proof.
  unfold have_new_ephemeris.
  destruct (b_flag_ephemeris_1 m && b_flag_ephemeris_2 m) eqn:Hf;
    [destruct (_ =? _) eqn:Ht |]; cbn [snd].
  - reflexivity.
  - now rewrite Hf, Ht.
  - now rewrite Hf.
Qed.

Lemma have_new_ephemeris_true m :
  b_flag_ephemeris_1 m = true ->
  b_flag_ephemeris_2 m = true ->
  Gps_CNAV_Ephemeris.d_Toe1 (ephemeris_record m)
    = Gps_CNAV_Ephemeris.d_Toe2 (ephemeris_record m) ->
  fst (have_new_ephemeris m) = true.
Proof.
  intros H1 H2 Ht. unfold have_new_ephemeris.
  now rewrite H1, H2, Ht, Z.eqb_refl.
Qed.

(** X10. A type-10 page and a type-11 page whose scaled Toe agree publish
    one ephemeris, in either order and whatever is decoded in between, as
    long as no page in between is of the type of the first half decoded:
    have_new_ephemeris then returns true, and false on the next call. *)
Theorem ephemeris_pair_publishes
    (cat : catalogue) (page_10 page_11 : bitset) (between : list bitset)
    (m : t) :
  page_type cat page_10 = 10 ->
  page_type cat page_11 = 11 ->
  mul32 (int32_unsigned cat page_10 CNAV_TOE1) (int_LSB cat CNAV_TOE1)
    = mul32 (int32_unsigned cat page_11 CNAV_TOE2) (int_LSB cat CNAV_TOE2) ->
  (Forall (fun data_bits => page_type cat data_bits <> 10) between ->
     let m' := decode_page cat page_11
                 (decode_pages cat between (decode_page cat page_10 m)) in
     fst (have_new_ephemeris m') = true
     /\ fst (have_new_ephemeris (snd (have_new_ephemeris m'))) = false)
  /\ (Forall (fun data_bits => page_type cat data_bits <> 11) between ->
        let m' := decode_page cat page_10
                    (decode_pages cat between (decode_page cat page_11 m)) in
        fst (have_new_ephemeris m') = true
        /\ fst (have_new_ephemeris (snd (have_new_ephemeris m'))) = false).
Proof.
  intros H10 H11 Htoe. split; intros Hall m';
    (split; [| apply have_new_ephemeris_twice]); subst m';
    apply have_new_ephemeris_true.
  - rewrite (proj1 (flags_after_page cat page_11 _)).
    rewrite (proj1 (decode_pages_keep_half_1 cat between _ Hall
                      ltac:(rewrite (proj1 (flags_after_page cat page_10 m)),
                              H10; apply orb_true_r))).
    reflexivity.
  - rewrite (proj1 (proj2 (flags_after_page cat page_11 _))), H11.
    apply orb_true_r.
  - rewrite (proj1 (toe_after_page cat page_11 _)) by lia.
    rewrite (proj2 (proj2 (proj2 (toe_after_page cat page_11 _))) H11).
    rewrite (proj2 (decode_pages_keep_half_1 cat between _ Hall
                      ltac:(rewrite (proj1 (flags_after_page cat page_10 m)),
                              H10; apply orb_true_r))).
    rewrite (proj1 (proj2 (proj2 (toe_after_page cat page_10 m))) H10).
    exact Htoe.
  - rewrite (proj1 (flags_after_page cat page_10 _)), H10.
    apply orb_true_r.
  - rewrite (proj1 (proj2 (flags_after_page cat page_10 _))).
    rewrite (proj1 (decode_pages_keep_half_2 cat between _ Hall
                      ltac:(rewrite (proj1 (proj2 (flags_after_page cat page_11 m))),
                              H11; apply orb_true_r))).
    reflexivity.
  - rewrite (proj1 (proj2 (toe_after_page cat page_10 _))) by lia.
    rewrite (proj1 (proj2 (proj2 (toe_after_page cat page_10 _))) H10).
    rewrite (proj2 (decode_pages_keep_half_2 cat between _ Hall
                      ltac:(rewrite (proj1 (proj2 (flags_after_page cat page_11 m))),
                              H11; apply orb_true_r))).
    rewrite (proj2 (proj2 (proj2 (toe_after_page cat page_11 m))) H11).
    exact Htoe.
Qed.

Lemma ephemeris_pair_publishes_witness :
  let m := decode_page layout (page_type_11 0x234)
             (decode_pages layout [page_type_30; page_type_33; page_type_12]
                (decode_page layout (page_type_10 0x234) blank)) in
  page_type layout (page_type_10 0x234) = 10
  /\ page_type layout (page_type_11 0x234) = 11
  /\ fst (have_new_ephemeris m) = true
  /\ fst (have_new_ephemeris (snd (have_new_ephemeris m))) = false.
Proof.
  intros m.
  assert (H10 : page_type layout (page_type_10 0x234) = 10)
    by (vm_compute; reflexivity).
  assert (H11 : page_type layout (page_type_11 0x234) = 11)
    by (vm_compute; reflexivity).
  split; [exact H10 |]. split; [exact H11 |].
  refine (proj1 (ephemeris_pair_publishes layout (page_type_10 0x234)
                   (page_type_11 0x234)
                   [page_type_30; page_type_33; page_type_12] blank
                   H10 H11 _) _).
  - vm_compute. reflexivity.
  - repeat constructor; vm_compute; discriminate.
Defined.

(** X11. The three publishers change nothing but their own flags: no
    record and no other member is touched (putting a publisher's own flags
    back gives the decoder as it was), the second of two calls of the
    same publisher in a row returns false, and what one publisher returns
    does not depend on calls of the other two. *)
Theorem have_new_independent (m : t) :
  fst (have_new_ephemeris (snd (have_new_ephemeris m))) = false
  /\ fst (have_new_iono (snd (have_new_iono m))) = false
  /\ fst (have_new_utc_model (snd (have_new_utc_model m))) = false
  /\ (forall m',
        m' = snd (have_new_ephemeris m) \/ m' = snd (have_new_iono m)
        \/ m' = snd (have_new_utc_model m) ->
        ephemeris_record m' = ephemeris_record m
        /\ iono_record m' = iono_record m
        /\ utc_model_record m' = utc_model_record m
        /\ d_TOW m' = d_TOW m
        /\ satelliteBlock m' = satelliteBlock m)
  /\ fst (have_new_ephemeris (snd (have_new_iono m))) = fst (have_new_ephemeris m)
  /\ fst (have_new_ephemeris (snd (have_new_utc_model m)))
     = fst (have_new_ephemeris m)
  /\ fst (have_new_iono (snd (have_new_ephemeris m))) = fst (have_new_iono m)
  /\ fst (have_new_iono (snd (have_new_utc_model m))) = fst (have_new_iono m)
  /\ fst (have_new_utc_model (snd (have_new_ephemeris m)))
     = fst (have_new_utc_model m)
  /\ fst (have_new_utc_model (snd (have_new_iono m)))
     = fst (have_new_utc_model m)
  /\ set_b_flag_ephemeris_1 (b_flag_ephemeris_1 m)
       (set_b_flag_ephemeris_2 (b_flag_ephemeris_2 m)
          (snd (have_new_ephemeris m))) = m
  /\ set_b_flag_iono_valid (b_flag_iono_valid m) (snd (have_new_iono m)) = m
  /\ set_b_flag_utc_valid (b_flag_utc_valid m) (snd (have_new_utc_model m))
     = m.
Proof.
  split; [apply have_new_ephemeris_twice |].
  unfold have_new_ephemeris, have_new_iono, have_new_utc_model.
  destruct m as [b1 b2 bi bu e i u sb x y z ch prn vx vy vz tow].
  cbn [b_flag_ephemeris_1 b_flag_ephemeris_2 b_flag_iono_valid
       b_flag_utc_valid ephemeris_record].
  destruct (Gps_CNAV_Ephemeris.d_Toe1 e =? Gps_CNAV_Ephemeris.d_Toe2 e) eqn:Ht;
    destruct b1, b2, bi, bu; cbn; rewrite ?Ht;
    repeat apply conj; try reflexivity;
    intros m' [-> | [-> | ->]]; repeat split.
Qed.

(** X12. reset forgets what was decoded but not the data: after it the
    three publishers return false, a single ephemeris half decoded next
    does not publish even when its Toe matches the stored other half, and
    the three records and the satellite block table are as before. *)
Theorem reset_forgets (cat : catalogue) (data_bits : bitset) (m : t) :
  have_new_ephemeris (reset m) = (false, reset m)
  /\ have_new_iono (reset m) = (false, reset m)
  /\ have_new_utc_model (reset m) = (false, reset m)
  /\ (page_type cat data_bits = 10 \/ page_type cat data_bits = 11 ->
        fst (have_new_ephemeris (decode_page cat data_bits (reset m))) = false)
  /\ ephemeris_record (reset m) = ephemeris_record m
  /\ iono_record (reset m) = iono_record m
  /\ utc_model_record (reset m) = utc_model_record m
  /\ satelliteBlock (reset m) = satelliteBlock m.
Proof.
  repeat apply conj; try reflexivity.
  intros Hty. unfold have_new_ephemeris.
  destruct (flags_after_page cat data_bits (reset m)) as (F1 & F2 & _).
  rewrite F1, F2. cbn [reset b_flag_ephemeris_1 b_flag_ephemeris_2 orb].
  destruct Hty as [-> | ->]; reflexivity.
Qed.

(** X13. get_utc_model writes only the valid member: the returned record
    has every other member as stored and is the record stored afterwards,
    putting the old UTC record back gives the decoder as it was (so the
    flags, the other records and every other member are untouched), a
    second call returns the same record and leaves the same decoder, and
    once set valid stays set through later pages, publisher calls and
    reset. *)
Theorem utc_valid_persists (cat : catalogue) (data_bits : bitset) (m : t) :
  let g := get_utc_model m in
  get_utc_model (snd g) = g
  /\ (b_flag_ephemeris_1 (snd g), b_flag_ephemeris_2 (snd g),
      b_flag_iono_valid (snd g), b_flag_utc_valid (snd g))
     = (b_flag_ephemeris_1 m, b_flag_ephemeris_2 m,
        b_flag_iono_valid m, b_flag_utc_valid m)
  /\ ephemeris_record (snd g) = ephemeris_record m
  /\ iono_record (snd g) = iono_record m
  /\ Gps_CNAV_Utc_Model.valid
       (utc_model_record (decode_page cat data_bits (snd g))) = true
  /\ Gps_CNAV_Utc_Model.valid
       (utc_model_record (snd (have_new_utc_model (snd g)))) = true
  /\ Gps_CNAV_Utc_Model.valid (utc_model_record (reset (snd g))) = true
  /\ Gps_CNAV_Utc_Model.valid (fst g) = true
  /\ (Gps_CNAV_Utc_Model.d_A0 (fst g), Gps_CNAV_Utc_Model.d_A1 (fst g),
      Gps_CNAV_Utc_Model.d_A2 (fst g), Gps_CNAV_Utc_Model.d_DeltaT_LS (fst g),
      Gps_CNAV_Utc_Model.d_t_OT (fst g), Gps_CNAV_Utc_Model.i_WN_T (fst g),
      Gps_CNAV_Utc_Model.i_WN_LSF (fst g), Gps_CNAV_Utc_Model.i_DN (fst g),
      Gps_CNAV_Utc_Model.d_DeltaT_LSF (fst g))
     = (Gps_CNAV_Utc_Model.d_A0 (utc_model_record m),
        Gps_CNAV_Utc_Model.d_A1 (utc_model_record m),
        Gps_CNAV_Utc_Model.d_A2 (utc_model_record m),
        Gps_CNAV_Utc_Model.d_DeltaT_LS (utc_model_record m),
        Gps_CNAV_Utc_Model.d_t_OT (utc_model_record m),
        Gps_CNAV_Utc_Model.i_WN_T (utc_model_record m),
        Gps_CNAV_Utc_Model.i_WN_LSF (utc_model_record m),
        Gps_CNAV_Utc_Model.i_DN (utc_model_record m),
        Gps_CNAV_Utc_Model.d_DeltaT_LSF (utc_model_record m))
  /\ utc_model_record (snd g) = fst g
  /\ set_utc_model_record (utc_model_record m) (snd g) = m.
Proof.
  cbv zeta. repeat apply conj; try reflexivity.
  - switch_cases cat data_bits; as_assignment; reflexivity.
  - unfold have_new_utc_model. destruct (b_flag_utc_valid _); reflexivity.
  - destruct m; reflexivity.
Qed.

Lemma fill_blocks_lookup what_block n : forall prn_ blocks k,
  fill_blocks what_block n prn_ blocks !! k
  = if decide (prn_ <= k < 33 /\ k < prn_ + Z.of_nat n)
    then Some (what_block "GPS"%string k)
    else blocks !! k.
Proof.
  induction n as [| n IH]; intros prn_ blocks k.
  - cbn [fill_blocks]. case_decide; [lia | reflexivity].
  - cbn [fill_blocks]. destruct (Z.ltb_spec prn_ 33) as [Hlt | Hge].
    + rewrite IH. destruct (decide (k = prn_)) as [-> | Hne].
      * rewrite lookup_insert_eq. repeat case_decide; try lia; reflexivity.
      * rewrite lookup_insert_ne by congruence.
        repeat case_decide; try lia; reflexivity.
    + case_decide; [lia | reflexivity].
Qed.

(** X14. A newly constructed decoder has all four flags clear, so none of
    the three publishers returns true, and its satellite block table holds
    exactly the PRNs 1 to 32, each with the block what_block gives it. *)
Theorem constructed_decoder
    (what_block : string -> Z -> string) (eph : Gps_CNAV_Ephemeris.t)
    (iono : Gps_CNAV_Iono.t) (utc : Gps_CNAV_Utc_Model.t) :
  let m := Gps_CNAV_Navigation_Message what_block eph iono utc in
  have_new_ephemeris m = (false, m)
  /\ have_new_iono m = (false, m)
  /\ have_new_utc_model m = (false, m)
  /\ (forall prn, 1 <= prn <= 32 ->
        satelliteBlock m !! prn = Some (what_block "GPS"%string prn))
  /\ (forall prn, prn < 1 \/ 32 < prn -> satelliteBlock m !! prn = None)
  /\ (ephemeris_record m, iono_record m, utc_model_record m) = (eph, iono, utc)
  /\ (b_flag_ephemeris_1 m, b_flag_ephemeris_2 m,
      b_flag_iono_valid m, b_flag_utc_valid m)
     = (false, false, false, false).
Proof.
  cbv zeta. repeat apply conj; try reflexivity.
  - intros prn Hprn.
    change (satelliteBlock (Gps_CNAV_Navigation_Message what_block eph iono utc))
      with (fill_blocks what_block 32 1 (∅ : gmap Z string)).
    rewrite fill_blocks_lookup. case_decide; [reflexivity | lia].
  - intros prn Hprn.
    change (satelliteBlock (Gps_CNAV_Navigation_Message what_block eph iono utc))
      with (fill_blocks what_block 32 1 (∅ : gmap Z string)).
    rewrite fill_blocks_lookup. case_decide; [lia | apply lookup_empty].
Qed.

(** X20. The casts to [int32_t] lose nothing on the fields of a page: an
    unsigned read of at most 31 bits and a signed read of at most 32 bits
    (of a well-formed descriptor) are stored as read; an unsigned read of
    exactly 32 bits is stored as the signed read of the same bits. *)
Theorem int32_casts_lossless
    (cat : catalogue) (data_bits : bitset) (F : field) :
  well_formed (slices cat F) ->
  let n := field_width (slices cat F) in
  (n <= 31 ->
     int32_unsigned cat data_bits F
       = read_navigation_unsigned data_bits (slices cat F))
  /\ (n <= 32 ->
        int32_signed cat data_bits F
          = read_navigation_signed data_bits (slices cat F))
  /\ (n = 32 ->
        int32_unsigned cat data_bits F
          = read_navigation_signed data_bits (slices cat F)).
Proof.
  intros (_ & Hfirst & Hne) n.
  unfold int32_unsigned, int32_signed, to_int32.
  destruct (slices cat F) as [| [first second] rest] eqn:EF; [congruence |].
  change (snd (front ((first, second) :: rest))) with second in Hfirst.
  assert (Hn1 : 1 <= n).
  { subst n. rewrite BitReaderFacts.field_width_cons.
    pose proof (BitReaderFacts.field_width_nonneg rest). lia. }
  assert (Hsplit : n <= 32 ->
            exists r b, 0 <= r < 2 ^ (n - 1) /\ (b = 0 \/ b = 1)
              /\ 2 ^ (n - 1) <= 2 ^ 31
              /\ read_navigation_unsigned data_bits ((first, second) :: rest)
                 = b * 2 ^ (n - 1) + r
              /\ read_navigation_signed data_bits ((first, second) :: rest)
                 = r - b * 2 ^ (n - 1)).
  { intros Hn.
    destruct (BitReaderFacts.signed_unsigned_split data_bits first second rest
                Hfirst) as (r & Hr & Eu & Es); [fold n; lia |].
    exists r, (Z.b2z (bit data_bits (GPS_CNAV_DATA_PAGE_BITS - first))).
    split; [exact Hr |].
    split; [destruct (bit data_bits _); simpl; lia |].
    split; [apply Z.pow_le_mono_r; lia |]. split; [exact Eu | exact Es]. }
  repeat apply conj; intros Hn;
    destruct Hsplit as (r & b & Hr & Hb & Hp & Eu & Es); try lia;
    rewrite ?Eu, ?Es.
  - assert (Hp' : 2 * 2 ^ (n - 1) <= 2 ^ 31).
    { rewrite <- Z.pow_succ_r by lia. apply Z.pow_le_mono_r; lia. }
    rewrite Z.mod_small; [lia |].
    destruct Hb as [-> | ->]; lia.
  - rewrite Z.mod_small; [lia |]. destruct Hb as [-> | ->]; lia.
  - assert (E31 : 2 ^ (n - 1) = 2 ^ 31) by (f_equal; lia).
    rewrite E31 in *. destruct Hb as [-> | ->].
    + rewrite Z.mod_small; lia.
    + replace (1 * 2 ^ 31 + r + 2 ^ 31) with (r + 1 * 2 ^ 32) by lia.
      rewrite Z.mod_add by lia. rewrite Z.mod_small; lia.
Qed.

Lemma int32_casts_lossless_witness :
  well_formed (slices layout CNAV_DELTA_TLS)
  /\ int32_signed layout page_type_33 CNAV_DELTA_TLS
     = read_navigation_signed page_type_33 (slices layout CNAV_DELTA_TLS)
  /\ read_navigation_signed page_type_33 (slices layout CNAV_DELTA_TLS) = 18.
Proof.
  assert (Hw : well_formed (slices layout CNAV_DELTA_TLS)).
  { split; [| split; [simpl; lia | discriminate]].
    constructor;
      [unfold slice_in_page, GPS_CNAV_DATA_PAGE_BITS; simpl; lia | constructor]. }
  split; [exact Hw |]. split; [| vm_compute; reflexivity].
  refine (proj1 (proj2 (int32_casts_lossless layout page_type_33
                          CNAV_DELTA_TLS Hw)) _).
  vm_compute. discriminate.
Defined.

End DecoderMore.

(* ===================================================================== *)
(** * Further properties of the channel state machine *)
(* ===================================================================== *)

Module ChannelFsmMore.
Import ChannelFsm ChannelRuns ChannelFsmFacts.

(** X15. The guard of the three emitting actions never suppresses
    anything: for a queue pointer that is null or points to a live object,
    each action hands its message to [queue_] as if unguarded. *)
Theorem guard_never_suppresses (m : t) :
  queue_valid m ->
  request_satellite m = handle 0 m
  /\ notify_stop_tracking m = handle 2 m
  /\ (forall trk, trk_ m = Some trk ->
        start_tracking m = handle 1 (call (tracking_start_tracking trk) m)).
Proof.
  intros Hv. unfold request_satellite, notify_stop_tracking, start_tracking.
  rewrite (queue_guard_holds m Hv). repeat split.
  intros trk ->.
  now rewrite (queue_guard_holds _ (queue_valid_call _ m Hv)).
Qed.

Lemma guard_never_suppresses_witness :
  let m := {| acq_ := Some 1%positive; trk_ := Some 2%positive;
              queue_ := None; channel_ := 7;
              current := channel_acquiring_fsm_S1;
              live := {[ 1%positive; 2%positive ]};
              calls := [] |} in
  queue_valid m
  /\ request_satellite m = handle 0 m
  /\ handle 0 m = Undefined null_queue_.
Proof.
  intros m.
  assert (Hv : queue_valid m) by exact I.
  split; [exact Hv |]. split; [| reflexivity].
  exact (proj1 (guard_never_suppresses m Hv)).
Defined.

Lemma moved_nil m : moved m (current m) [] = m.
Proof. unfold moved. rewrite app_nil_r. now destruct m. Qed.

Lemma guarded_handle_returns_short (guard : bool) what m m' :
  (if guard then handle what m else Returns m) = Returns m' ->
  exists es, m' = moved m (current m) es /\ (length es <= 1)%nat.
Proof.
  destruct guard.
  - unfold handle. destruct (queue_ m); intros [= <-].
    eexists. split; [reflexivity | simpl; lia].
  - intros [= <-]. exists []. split; [symmetry; apply moved_nil | simpl; lia].
Qed.

Lemma exit_action_returns_short s m m' :
  exit_action s m = Returns m' ->
  exists es, m' = moved m (current m) es /\ (length es <= 1)%nat.
Proof.
  destruct s; cbn [exit_action];
    try (intros [= <-]; exists [];
         split; [symmetry; apply moved_nil | simpl; lia]).
  apply guarded_handle_returns_short.
Qed.

Lemma entry_action_returns_short s m m' :
  entry_action s m = Returns m' ->
  exists es, m' = moved m (current m) es /\ (length es <= 2)%nat.
Proof.
  destruct s; cbn [entry_action].
  - intros [= <-]. exists []. split; [symmetry; apply moved_nil | simpl; lia].
  - unfold start_acquisition. destruct (acq_ m); intros [= <-].
    eexists. split; [reflexivity | simpl; lia].
  - unfold start_tracking. destruct (trk_ m) as [trk |]; [| discriminate].
    intros H. apply guarded_handle_returns_short in H.
    destruct H as (es & -> & Hl).
    exists (tracking_start_tracking trk :: es). split; [| simpl; lia].
    unfold moved, call; cbn. now rewrite <- app_assoc.
  - intros H. apply guarded_handle_returns_short in H.
    destruct H as (es & -> & Hl). exists es. split; [reflexivity | lia].
Qed.

(** X16. An event call that returns has not touched the bindings: the
    provider pointers, the queue pointer and the channel number are as
    before, and the calls made so far are extended by at most three. *)
Theorem process_event_appends (e : event) (m m' : t) :
  process_event e m = Returns m' ->
  acq_ m' = acq_ m /\ trk_ m' = trk_ m /\ queue_ m' = queue_ m
  /\ channel_ m' = channel_ m /\ live m' = live m
  /\ exists es, calls m' = calls m ++ es /\ (length es <= 3)%nat.
Proof.
  unfold process_event.
  destruct (reactions (current m) e) as [destination |].
  - destruct (exit_action (current m) m) as [m1 | f] eqn:E1; [| discriminate].
    apply exit_action_returns_short in E1. destruct E1 as (es1 & -> & L1).
    cbn [bind]. unfold enter.
    destruct (entry_action destination _) as [m2 | f] eqn:E2; [| discriminate].
    apply entry_action_returns_short in E2. destruct E2 as (es2 & -> & L2).
    cbn [bind]. intros [= <-]. repeat split.
    exists (es1 ++ es2). cbn. rewrite <- app_assoc. split; [reflexivity |].
    rewrite length_app. lia.
  - intros [= <-]. repeat split. exists []. rewrite app_nil_r.
    split; [reflexivity | simpl; lia].
Qed.

Lemma process_event_appends_witness :
  let m := {| acq_ := Some 1%positive; trk_ := Some 2%positive;
              queue_ := Some 3%positive; channel_ := 7;
              current := channel_tracking_fsm_S2;
              live := {[ 1%positive; 2%positive; 3%positive ]};
              calls := [] |} in
  let m' := moved m channel_acquiring_fsm_S1
              [queue_handle 3%positive (7, 2); acquisition_reset 1%positive] in
  process_event Ev_channel_start_acquisition m = Returns m'
  /\ queue_ m' = queue_ m
  /\ channel_ m' = channel_ m.
Proof.
  intros m m'.
  assert (Hb : bound m 1%positive 2%positive 3%positive).
  { repeat split; set_solver. }
  assert (E : process_event Ev_channel_start_acquisition m = Returns m')
    by exact (process_event_bound m _ _ _ Ev_channel_start_acquisition
                channel_acquiring_fsm_S1 Hb eq_refl).
  split; [exact E |].
  destruct (process_event_appends _ m m' E) as (_ & _ & Hq & Hc & _).
  split; [exact Hq | exact Hc].
Defined.

(** X17. Entering ACQUIRING from IDLE, WAITING or ACQUIRING itself needs
    the acquisition provider only: with it bound the event call returns in
    ACQUIRING after one call of reset, whether or not a tracking provider
    or a queue is bound. *)
Theorem acquiring_needs_only_acquisition (m : t) (e : event) (acq : addr) :
  reactions (current m) e = Some channel_acquiring_fsm_S1 ->
  current m <> channel_tracking_fsm_S2 ->
  acq_ m = Some acq ->
  process_event e m
    = Returns (moved m channel_acquiring_fsm_S1 [acquisition_reset acq]).
Proof.
  intros Hr Hs Ha. unfold process_event. rewrite Hr.
  assert (Ex : exit_action (current m) m = Returns m)
    by (destruct (current m); [reflexivity | reflexivity | congruence | reflexivity]).
  rewrite Ex. cbn [bind]. unfold enter. cbn [entry_action].
  unfold start_acquisition. rewrite Ha. reflexivity.
Qed.

Lemma acquiring_needs_only_acquisition_witness :
  exists m0,
    ChannelFsm_acquisition ∅ (Some 1%positive) = Returns m0
    /\ trk_ m0 = None /\ queue_ m0 = None
    /\ Event_start_acquisition m0
       = Returns (moved m0 channel_acquiring_fsm_S1
                    [acquisition_reset 1%positive]).
Proof.
  exists {| acq_ := Some 1%positive; trk_ := None; queue_ := None;
            channel_ := 0; current := channel_idle_fsm_S0; live := ∅;
            calls := [] |}.
  split; [reflexivity |].
  split; [reflexivity |]. split; [reflexivity |].
  apply (acquiring_needs_only_acquisition _ Ev_channel_start_acquisition
           1%positive); [reflexivity | discriminate | reflexivity].
Defined.

(** X18. In IDLE and in WAITING every event but start_acquisition is
    discarded: a run of such events returns the machine as it was, with
    nothing called, even when no provider and no queue is bound. *)
Theorem idle_and_waiting_ignore (es : list event) (m : t) :
  current m = channel_idle_fsm_S0 \/ current m = channel_waiting_fsm_S3 ->
  Forall (fun e => e <> Ev_channel_start_acquisition) es ->
  run es m = Returns m.
Proof.
  intros Hs Hes. induction Hes as [| e es He _ IH]; [reflexivity |].
  cbn [run].
  assert (E : process_event e m = Returns m).
  { unfold process_event.
    destruct Hs as [-> | ->]; destruct e; try reflexivity; congruence. }
  rewrite E. exact IH.
Qed.

Lemma idle_and_waiting_ignore_witness :
  exists m0,
    ChannelFsm ∅ = Returns m0
    /\ current m0 = channel_idle_fsm_S0
    /\ run [Ev_channel_valid_acquisition; Ev_channel_failed_tracking_standby;
            Ev_channel_failed_acquisition_repeat;
            Ev_channel_failed_acquisition_no_repeat] m0
       = Returns m0.
Proof.
  exists {| acq_ := None; trk_ := None; queue_ := None; channel_ := 0;
            current := channel_idle_fsm_S0; live := ∅; calls := [] |}.
  split; [reflexivity |]. split; [reflexivity |].
  apply idle_and_waiting_ignore; [left; reflexivity |].
  repeat constructor; discriminate.
Defined.

Lemma count_what_app what cs1 cs2 :
  count_what what (cs1 ++ cs2)
    = (count_what what cs1 + count_what what cs2)%nat.
Proof.
  induction cs1 as [| [a | a | q [who w]] cs1 IH]; cbn; try exact IH;
    [reflexivity |].
  destruct (w =? what); cbn; now rewrite IH.
Qed.

Lemma count_start_tracking_app cs1 cs2 :
  count_start_tracking (cs1 ++ cs2)
    = (count_start_tracking cs1 + count_start_tracking cs2)%nat.
Proof.
  induction cs1 as [| [a | a | q msg] cs1 IH]; cbn; try exact IH;
    [reflexivity | now rewrite IH].
Qed.

Lemma balanced_step m acq trk queue e :
  bound m acq trk queue ->
  balanced m ->
  exists m', process_event e m = Returns m'
             /\ bound m' acq trk queue /\ balanced m'.
Proof.
  intros Hb [H1 H2].
  destruct (reactions (current m) e) as [destination |] eqn:Hr.
  - rewrite (process_event_bound m acq trk queue e destination Hb Hr).
    eexists. split; [reflexivity |]. split; [exact Hb |].
    unfold balanced, moved. cbn [calls current].
    rewrite !count_what_app, !count_start_tracking_app.
    destruct (current m), e; try discriminate Hr;
      injection Hr as <-; cbn in *; lia.
  - exists m. split; [| split; [exact Hb | split; [exact H1 | exact H2]]].
    unfold process_event. now rewrite Hr.
Qed.

(** X19. Over any run of events on a machine whose providers and queue
    are bound, every call returns and the notifications stay balanced:
    the queue has received one more (channel, 1) than (channel, 2) when the
    machine is in TRACKING and as many otherwise, and one (channel, 1) for
    every call of start_tracking on the tracking provider. *)
Theorem notifications_balanced
    (es : list event) (m : t) (acq trk queue : addr) :
  bound m acq trk queue ->
  balanced m ->
  exists m', run es m = Returns m' /\ bound m' acq trk queue /\ balanced m'.
Proof.
  revert m. induction es as [| e es IH]; intros m Hb Hbal.
  - exists m. split; [reflexivity | split; assumption].
  - destruct (balanced_step m acq trk queue e Hb Hbal) as (m1 & E & Hb1 & Hbal1).
    destruct (IH m1 Hb1 Hbal1) as (m' & Er & Hb' & Hbal').
    exists m'. cbn [run]. rewrite E. cbn [bind].
    split; [exact Er | split; assumption].
Qed.

Lemma notifications_balanced_witness :
  let m := {| acq_ := Some 1%positive; trk_ := Some 2%positive;
              queue_ := Some 3%positive; channel_ := 7;
              current := channel_idle_fsm_S0;
              live := {[ 1%positive; 2%positive; 3%positive ]};
              calls := [] |} in
  bound m 1%positive 2%positive 3%positive
  /\ balanced m
  /\ exists m',
       run [Ev_channel_start_acquisition; Ev_channel_valid_acquisition;
            Ev_channel_start_acquisition; Ev_channel_valid_acquisition] m
         = Returns m'
       /\ balanced m'.
Proof.
  intros m.
  assert (Hb : bound m 1%positive 2%positive 3%positive).
  { repeat split; set_solver. }
  assert (Hbal : balanced m) by (split; reflexivity).
  split; [exact Hb |]. split; [exact Hbal |].
  destruct (notifications_balanced
              [Ev_channel_start_acquisition; Ev_channel_valid_acquisition;
               Ev_channel_start_acquisition; Ev_channel_valid_acquisition]
              m _ _ _ Hb Hbal) as (m' & E & _ & Hbal').
  exists m'. split; [exact E | exact Hbal'].
Defined.

End ChannelFsmMore.
